(** * safe-local-exec: a shallow embedding of the provisioner's apply function

    The development follows [exec/resource_provisioner.go] of
    terraform-provisioner-safe-local-exec.  The Go packages the provisioner
    calls ([strconv], [context], [os/exec], [io], [armon/circbuf]) are
    embedded next to it after their documented behaviour; the operating
    system and the Go scheduler are an explicit oracle, the record [World].

    Part I holds the definitions, Part II the lemmas and the first
    theorems, Part III further properties of the provisioner and Part IV
    the two defects of the timeout case of its [select]. *)

From Stdlib Require Import String Ascii ZArith List Bool Lia DecimalString.
From Stdlib Require Import Init.Byte.
Import ListNotations.

Local Open Scope Z_scope.

(** * Part I: the embedding *)

(** ** Machine integers *)

(** Go's [int], [int64] and [time.Duration] are 64-bit two's complement on
    the targets of the build tag ([linux], [darwin]). *)
Definition wrap64 (z : Z) : Z := (z + 2 ^ 63) mod 2 ^ 64 - 2 ^ 63.

Definition in_int64 (z : Z) : Prop := - 2 ^ 63 <= z < 2 ^ 63.

(** ** Slices *)

Section Slices.
Context {A : Type}.

(** [lastn n l]: the [n] most recent elements of [l] (all of [l] if it is
    shorter). *)
Definition lastn (n : nat) (l : list A) : list A :=
  skipn (length l - n) l.

(** Go's builtin [copy(dst[off:], src)]: overwrites [dst] from index [off]
    with as much of [src] as fits; the length of [dst] never changes. *)
Definition copy_at (dst : list A) (off : nat) (src : list A) : list A :=
  firstn off dst ++ firstn (length dst - off) src
    ++ skipn (off + length src) dst.

End Slices.

(** ** github.com/armon/circbuf *)

(** The bounded output buffer of the provisioner is a [circbuf.Buffer]: a
    ring of [size] bytes, a write cursor and the count of bytes written
    (an [int64], hence the wrap-around). *)
Module circbuf.

Record Buffer : Type := mkBuffer {
  data : list byte;
  size : Z;
  writeCursor : Z;
  written : Z
}.

(** [NewBuffer(size)]: [(nil, error)] unless [size > 0]; the ring starts
    zeroed. *)
Definition NewBuffer (sz : Z) : option Buffer :=
  if sz <=? 0 then None
  else Some (mkBuffer (repeat x00 (Z.to_nat sz)) sz 0 0).

(** [Write(buf)]: accounts for the bytes, keeps only the last [size] bytes
    of an oversized [buf], copies in place with at most one wrap, and
    advances the cursor.  It returns [(len(buf), nil)]: the second component
    of the result is the error. *)
Definition Write (b : Buffer) (buf : list byte)
  : Buffer * (Z * option string) :=
  let n := Z.of_nat (length buf) in
  let written' := wrap64 (written b + n) in
  let buf' := if n >? size b then skipn (Z.to_nat (n - size b)) buf
              else buf in
  let remain := size b - writeCursor b in
  let data1 := copy_at (data b) (Z.to_nat (writeCursor b)) buf' in
  let data2 := if Z.of_nat (length buf') >? remain
               then copy_at data1 0 (skipn (Z.to_nat remain) buf')
               else data1 in
  (mkBuffer data2 (size b)
     (Z.rem (writeCursor b + Z.of_nat (length buf')) (size b)) written',
   (n, None)).

(** [Bytes()]: the retained bytes, oldest first. *)
Definition Bytes (b : Buffer) : list byte :=
  if (written b >=? size b) && (writeCursor b =? 0) then data b
  else if written b >? size b then
    let out := repeat x00 (Z.to_nat (size b)) in
    let out := copy_at out 0 (skipn (Z.to_nat (writeCursor b)) (data b)) in
    copy_at out (Z.to_nat (size b - writeCursor b))
      (firstn (Z.to_nat (writeCursor b)) (data b))
  else firstn (Z.to_nat (writeCursor b)) (data b).

(** Successive writes, one per chunk, with the result of each. *)
Fixpoint WriteAll (b : Buffer) (chunks : list (list byte))
  : Buffer * list (Z * option string) :=
  match chunks with
  | [] => (b, [])
  | c :: rest =>
      let (b1, r) := Write b c in
      let (b2, rs) := WriteAll b1 rest in
      (b2, r :: rs)
  end.

End circbuf.

(** ** Constants of the provisioner *)

(** [maxBufSize] limits how much output is collected from an invocation. *)
Definition maxBufSize : Z := 8 * 1024.

Definition MaxTimeOut : string := "MAX_TIMEOUT".

(** ** strconv.Atoi *)

Module strconv.

Inductive ErrKind : Type := ErrSyntax | ErrRange.

Definition digit_of (c : ascii) : option Z :=
  let n := Z.of_N (N_of_ascii c) in
  if (48 <=? n) && (n <=? 57) then Some (n - 48) else None.

Definition maxUint64 : Z := 2 ^ 64 - 1.

(** The digit loop of [ParseUint(s, 10, 64)]: a character that is no decimal
    digit is a syntax error; a value that leaves [uint64] is a range error,
    reported at the digit where it happens. *)
Fixpoint parse_uint_loop (s : string) (n : Z) : Z + ErrKind :=
  match s with
  | EmptyString => inl n
  | String c rest =>
      match digit_of c with
      | None => inr ErrSyntax
      | Some d =>
          if n >=? maxUint64 / 10 + 1 then inr ErrRange
          else if n * 10 + d >? maxUint64 then inr ErrRange
          else parse_uint_loop rest (n * 10 + d)
      end
  end.

Definition ParseUint (s : string) : Z + ErrKind :=
  match s with
  | EmptyString => inr ErrSyntax
  | _ => parse_uint_loop s 0
  end.

(** [Atoi(s)] is [ParseInt(s, 10, 0)]: an optional sign, then [ParseUint],
    then the range check of a 64-bit [int].  (The fast path of [Atoi] for
    short strings computes the same.) *)
Definition Atoi (s : string) : Z + ErrKind :=
  match s with
  | EmptyString => inr ErrSyntax
  | String c rest =>
      let neg := Ascii.eqb c "-" in
      let body := if Ascii.eqb c "+" || Ascii.eqb c "-" then rest else s in
      match ParseUint body with
      | inr k => inr k
      | inl un =>
          if negb neg && (un >=? 2 ^ 63) then inr ErrRange
          else if neg && (un >? 2 ^ 63) then inr ErrRange
          else inl (if neg then - un else un)
      end
  end.

End strconv.

(** ** Configuration data *)

(** A value of static type [interface{}]. *)
Inductive value : Type :=
| VString (s : string)
| VInt (n : Z)
| VBool (b : bool)
| VNil.

(** What [applyFn] reads from the [*schema.ResourceData]:
    [data.Get("command")], [data.Get("environment")] (a
    [map[string]interface{}], here the entries in the order the [range]
    loop visits them), [data.Get("interpreter")], [data.Get("working_dir")]
    and the configured ["timeout"], if any. *)
Record ResourceData : Type := mkData {
  command : string;
  environment : list (string * value);
  interpreter : list value;
  working_dir : string;
  timeout : option Z
}.

(** [data.GetOk("timeout")]: the value, and whether it was set to a
    non-zero value. *)
Definition GetOk_timeout (d : ResourceData) : Z * bool :=
  match timeout d with
  | Some t => (t, negb (t =? 0))
  | None => (0, false)
  end.

(** ** Errors, results and observable effects *)

Inductive error : Type :=
| Errorf (msg : string)                       (* built by [fmt.Errorf] *)
| NumError (Func Num : string) (Err : strconv.ErrKind).

(** How a process ended ([os.ProcessState]). *)
Inductive ProcessState : Type :=
| Exited (code : Z)
| Signaled (sig : string).

Definition Success (st : ProcessState) : bool :=
  match st with
  | Exited 0 => true
  | _ => false
  end.

(** The errors of [cmd.Start] and [cmd.Wait]. *)
Inductive cmderr : Type :=
| DeadlineExceeded                 (* [ctx.Err()] of an expired context *)
| StartError (reason : string)     (* the OS could not create the process *)
| ExitError (st : ProcessState).   (* non-zero exit, or killed *)

Definition itoa (n : Z) : string := NilZero.string_of_int (Z.to_int n).

(** [err.Error()], what the verb [%v] prints. *)
Definition Error_text (e : cmderr) : string :=
  match e with
  | DeadlineExceeded => "context deadline exceeded"
  | StartError reason => reason
  | ExitError (Exited code) => "exit status " ++ itoa code
  | ExitError (Signaled sig) => "signal: " ++ sig
  end.

(** The result of a call of [applyFn]. *)
Inductive result : Type :=
| Ok                         (* [return nil] *)
| Failed (e : error)         (* [return err] *)
| Panicked (why : string).   (* run-time panic *)

(** The cases of the final [select]. *)
Inductive branch : Type :=
| CopyDone        (* [<-copyDoneCh] *)
| CallerDone      (* [<-ctx.Done()] *)
| TimeoutDone.    (* [<-cmdCtx.Done()] *)

Definition branch_eqb (a b : branch) : bool :=
  match a, b with
  | CopyDone, CopyDone | CallerDone, CallerDone
  | TimeoutDone, TimeoutDone => true
  | _, _ => false
  end.

(** What a call does, in program order: its effects on the outside, and
    what it learns from the outside at each blocking call. *)
Inductive event : Type :=
| EvLog (t : Z)                       (* [log.Println(..., timeout)] *)
| EvPipe                              (* [os.Pipe()] allocated a pipe *)
| EvWithTimeout (d : Z)               (* [context.WithTimeout(..., d)] *)
| EvGoCopyOutput                      (* [go copyOutput(o, tee, copyDoneCh)] *)
| EvExecuting (cmdargs : list string) (* [o.Output("Executing: ...")] *)
| EvStartFailed (err : cmderr)        (* [cmd.Start()] returned an error *)
| EvSpawn (pid : Z) (argv : list string) (dir : string) (env : list string)
          (setpgid : bool)            (* [cmd.Start()] created a process
                                         from [cmd.Args], [cmd.Dir],
                                         [cmd.Env] and [Setpgid] *)
| EvWait (pid : Z) (err : option cmderr) (now : Z)
                                      (* [cmd.Wait()] returned [err] *)
| EvClosePw                           (* [pw.Close()] *)
| EvSelect (b : branch) (now : Z)     (* the case the [select] takes *)
| EvGetpgid (pid : Z) (r : option Z)  (* [syscall.Getpgid(pid)] *)
| EvKill (target : Z) (sig : Z).      (* [syscall.Kill(target, sig)] *)

(** ** The outside world *)

(** Everything [applyFn] gets from the operating system and the scheduler.
    Times are nanoseconds from the moment the command context is created
    and the command started. *)
Record World : Type := mkWorld {
  GOOS : string;                       (* [runtime.GOOS] *)
  Getenv_MaxTimeOut : string;          (* [os.Getenv(MaxTimeOut)] *)
  Environ : list string;               (* [os.Environ()] *)
  pipe_error : option string;          (* failure of [os.Pipe()] *)
  lookpath_error : option string;      (* the executable is not found *)
  spawn_error : option string;         (* failure of fork/exec *)
  child_pid : Z;                       (* pid of the process, once created *)
  exit_after : option Z;               (* when the command exits by itself *)
  exit_state : ProcessState;           (* and how *)
  drained : list (list byte);          (* the chunks the tee reader has read
                                          when [output.Bytes()] is called *)
  drain_done_after : option Z;         (* when [copyDoneCh] is closed *)
  caller_done_after : option Z;        (* when the caller's [ctx] is done *)
  select_order : list branch;          (* the scheduler's pick among the
                                          cases that are ready *)
  Getpgid : Z -> Z -> option Z         (* [syscall.Getpgid(pid)] at a time;
                                          [None]: it fails, as it does for
                                          a child that was waited for,
                                          unless its pid has a new owner *)
}.

(** ** A monad for [applyFn]: effects, early returns and panics *)

Inductive step (A : Type) : Type :=
| Next (a : A)                (* go on with the next statement *)
| Return (e : option error)   (* [return e] out of [applyFn] *)
| Panic (why : string).

Arguments Next {A} a.
Arguments Return {A} e.
Arguments Panic {A} why.

Definition M (A : Type) : Type := list event -> step A * list event.

Definition ret {A : Type} (a : A) : M A := fun tr => (Next a, tr).

Definition bind {A B : Type} (m : M A) (k : A -> M B) : M B :=
  fun tr =>
    match m tr with
    | (Next a, tr') => k a tr'
    | (Return e, tr') => (Return e, tr')
    | (Panic why, tr') => (Panic why, tr')
    end.

Definition emit (ev : event) : M unit := fun tr => (Next tt, tr ++ [ev]).

Definition return_ {A : Type} (e : option error) : M A :=
  fun tr => (Return e, tr).

Definition panic {A : Type} (why : string) : M A :=
  fun tr => (Panic why, tr).

Notation "x <- c ;; k" := (bind c (fun x => k))
  (at level 61, c at next level, right associativity).
Notation "c ;;; k" := (bind c (fun _ => k))
  (at level 61, right associativity).

(** ** context and os/exec *)

Definition Second : Z := 1000000000.

(** [time.Duration(timeout) * time.Second], an [int64] product. *)
Definition Duration_of_seconds (timeout : Z) : Z := wrap64 (timeout * Second).

(** [context.WithTimeout(context.Background(), d)] is
    [WithDeadline(parent, time.Now().Add(d))]: the context is done [d] after
    its creation, and at once if [d <= 0] (a deadline that has passed
    cancels the new context before it is returned). *)
Definition ctx_done_after (d : Z) : Z := Z.max 0 d.

(** [cmd.Start()] of a command made by [exec.CommandContext(cmdCtx, ...)],
    in the order of its checks: an executable that was not found is an
    error; a context that is already done makes [Start] return [ctx.Err()]
    and start nothing; else the process is created, or the OS fails to. *)
Definition cmd_Start (w : World) (d : Z) : cmderr + Z :=
  match lookpath_error w with
  | Some reason => inl (StartError reason)
  | None =>
      if d <=? 0 then inl DeadlineExceeded
      else match spawn_error w with
           | Some reason => inl (StartError reason)
           | None => inr (child_pid w)
           end
  end.

(** [cmd.Wait()]: returns when the process has ended, by itself before the
    deadline, or killed by the context at the deadline ([os.Process.Kill],
    whence the state "signal: killed").  The result is the error and the
    time of the return. *)
Definition cmd_Wait (w : World) (d : Z) : option cmderr * Z :=
  match exit_after w with
  | Some t =>
      if t <? d then
        (if Success (exit_state w) then None
         else Some (ExitError (exit_state w)), t)
      else (Some (ExitError (Signaled "killed")), d)
  | None => (Some (ExitError (Signaled "killed")), d)
  end.

(** ** The final [select] *)

Definition ready_after (w : World) (d : Z) (b : branch) : option Z :=
  match b with
  | CopyDone => drain_done_after w
  | CallerDone => caller_done_after w
  | TimeoutDone => Some (ctx_done_after d)
  end.

Definition omin (a : option Z) (b : Z) : Z :=
  match a with
  | Some x => Z.min x b
  | None => b
  end.

(** The time at which the [select] entered at [now] proceeds: at once if a
    case is ready, else when the first one becomes ready. *)
Definition select_time (w : World) (d now : Z) : Z :=
  Z.max now
    (omin (drain_done_after w) (omin (caller_done_after w) (ctx_done_after d))).

Definition is_ready (w : World) (d ts : Z) (b : branch) : bool :=
  match ready_after w d b with
  | Some t => t <=? ts
  | None => false
  end.

(** The case taken: one that is ready, by the scheduler's pick. *)
Definition select_branch (w : World) (d now : Z) : branch :=
  match find (is_ready w d (select_time w d now))
             (select_order w ++ [CopyDone; CallerDone; TimeoutDone]) with
  | Some b => b
  | None => TimeoutDone
  end.

(** ** The provisioner *)

(** Lines 73-77: the [range] loop over the environment. *)
Fixpoint env_entries (environment : list (string * value)) (env : list string)
  : M (list string) :=
  match environment with
  | [] => ret env
  | (k, v) :: rest =>
      match v with
      | VString s => env_entries rest (env ++ [(k ++ "=" ++ s)%string])
      | _ => panic "interface conversion: interface {} is not string"
      end
  end.

(** Lines 84-88: the interpreter's arguments, the strings only. *)
Fixpoint interpreter_args (interpreter : list value) : list string :=
  match interpreter with
  | [] => []
  | VString arg :: rest => arg :: interpreter_args rest
  | _ :: rest => interpreter_args rest
  end.

(** Lines 82-96. *)
Definition cmdargs_of (w : World) (data : ResourceData) : list string :=
  (if (0 <? length (interpreter data))%nat
   then interpreter_args (interpreter data)
   else if String.eqb (GOOS w) "windows" then ["cmd"; "/C"]%string
        else ["/bin/sh"; "-c"]%string)
  ++ [command data].

(** Lines 100-103. *)
Definition requested_timeout (data : ResourceData) : Z :=
  let (t, ok) := GetOk_timeout data in
  if ok then t else 0.

(** Lines 105-121: the ceiling of [MAX_TIMEOUT]. *)
Definition apply_max_timeout (t : string) (timeout : Z) : M Z :=
  if negb (String.length t =? 0)%nat then
    match strconv.Atoi t with
    | inr k => return_ (Some (NumError "Atoi" t k))
    | inl mTimeout =>
        let timeout :=
          if (timeout >? mTimeout) && negb (mTimeout =? 0) then mTimeout
          else timeout in
        let timeout := if timeout =? 0 then mTimeout else timeout in
        emit (EvLog timeout) ;;;
        ret timeout
    end
  else ret timeout.

(** Lines 186-191: the body of the case [<-cmdCtx.Done()]. *)
Definition kill_group (w : World) (process : option Z) (ts : Z) : M unit :=
  if negb (String.eqb (GOOS w) "windows") then
    match process with
    | None => panic "invalid memory address or nil pointer dereference"
    | Some pid =>
        emit (EvGetpgid pid (Getpgid w ts pid)) ;;;
        match Getpgid w ts pid with
        | Some pgid => emit (EvKill (wrap64 (- pgid)) 15)
        | None => ret tt
        end
    end
  else ret tt.

(** Lines 126-129: [os.Pipe()]. *)
Definition open_pipe (w : World) : M unit :=
  match pipe_error w with
  | Some err =>
      return_ (Some (Errorf
        ("failed to initialize pipe for output: " ++ err)%string))
  | None => emit EvPipe
  end.

(** Lines 168-172: [cmd.Start()], then [cmd.Wait()] if it succeeded.  The
    result is [cmd.Process], [err] and the time of the return.  The event
    of the spawn records the command as the code has set it up: [cmdEnv]
    is [cmd.Env] (line 154), from which os/exec takes, of the entries with
    the same key, the last (see [process_Getenv]). *)
Definition start_and_wait (w : World) (d : Z) (cmdargs : list string)
    (workingdir : string) (cmdEnv : list string) (setpgid : bool)
  : M (option Z * option cmderr * Z) :=
  match cmd_Start w d with
  | inl err => emit (EvStartFailed err) ;;; ret (None, Some err, 0)
  | inr pid =>
      emit (EvSpawn pid cmdargs workingdir cmdEnv setpgid) ;;;
      let (err, now) := cmd_Wait w d in
      emit (EvWait pid err now) ;;;
      ret (Some pid, err, now)
  end.

(** Lines 182-192: the [select]. *)
Definition final_select (w : World) (d : Z) (process : option Z) (now : Z)
  : M unit :=
  emit (EvSelect (select_branch w d now) (select_time w d now)) ;;;
  match select_branch w d now with
  | CopyDone => ret tt
  | CallerDone => ret tt
  | TimeoutDone => kill_group w process (select_time w d now)
  end.

(** The contents of the output buffer when it is read. *)
Definition output_Bytes (w : World) : list byte :=
  match circbuf.NewBuffer maxBufSize with
  | Some output => circbuf.Bytes (fst (circbuf.WriteAll output (drained w)))
  | None => []
  end.

(** Lines 194-199. *)
Definition result_of (w : World) (command : string) (err : option cmderr)
  : M unit :=
  match err with
  | Some e =>
      return_ (Some (Errorf
        ("Error running command '" ++ command ++ "': " ++ Error_text e
         ++ ". Output: " ++ string_of_list_byte (output_Bytes w))%string))
  | None => return_ None
  end.

(** [applyFn], lines 61-200.  Of the two values it takes from [ctx] (lines
    62-63), the configuration is the argument [data] and the UI output
    shows in the event [EvExecuting] and in [copyOutput].  The deferred
    [cancel()] leaves no trace: when [applyFn] returns, [cmd.Wait] has
    returned or no process was created. *)
Definition applyFn (w : World) (data : ResourceData) : M unit :=
  let command := command data in
  if String.eqb command "" then
    return_ (Some (Errorf
      "local-exec provisioner command must be a non-empty string"))
  else
  env <- env_entries (environment data) [] ;;
  let cmdargs := cmdargs_of w data in
  let workingdir := working_dir data in
  let timeout := requested_timeout data in
  timeout <- apply_max_timeout (Getenv_MaxTimeOut w) timeout ;;
  open_pipe w ;;;
  let cmdEnv := Environ w ++ env in
  let d := Duration_of_seconds timeout in
  emit (EvWithTimeout d) ;;;
  let setpgid := negb (String.eqb (GOOS w) "windows") in
  emit EvGoCopyOutput ;;;
  emit (EvExecuting cmdargs) ;;;
  started <- start_and_wait w d cmdargs workingdir cmdEnv setpgid ;;
  let '(process, err, now) := started in
  emit EvClosePw ;;;
  final_select w d process now ;;;
  result_of w command err.

(** A whole call: the result and the effects. *)
Definition run (w : World) (data : ResourceData) : result * list event :=
  match applyFn w data [] with
  | (Next _, tr) => (Ok, tr)
  | (Return None, tr) => (Ok, tr)
  | (Return (Some e), tr) => (Failed e, tr)
  | (Panic why, tr) => (Panicked why, tr)
  end.

(** [copyOutput]: every line of the line reader's channel goes to the UI
    output, in the order of the channel ([o] is what the sink has got so
    far). *)
Fixpoint copyOutput (o : list string) (ch : list string) : list string :=
  match ch with
  | [] => o
  | line :: rest => copyOutput (o ++ [line]) rest
  end.

(** ** Vocabulary of the statements *)

(** The last [N] bytes of the stream [s] written so far, behind a zeroed
    ring: what a ring of [N] cells holds, read from its cursor. *)
Definition window (N : nat) (s : list byte) : list byte :=
  lastn N (repeat x00 N ++ s).

(** The state of a buffer of capacity [N] after the stream [s]. *)
Record ring_inv (N : Z) (s : list byte) (b : circbuf.Buffer) : Prop := {
  inv_size : circbuf.size b = N;
  inv_len : length (circbuf.data b) = Z.to_nat N;
  inv_written : circbuf.written b = Z.of_nat (length s);
  inv_cursor : 0 <= circbuf.writeCursor b < N;
  inv_cursor_small :
    Z.of_nat (length s) <= N ->
    circbuf.writeCursor b = Z.of_nat (length s) mod N;
  inv_ring :
    skipn (Z.to_nat (circbuf.writeCursor b)) (circbuf.data b)
    ++ firstn (Z.to_nat (circbuf.writeCursor b)) (circbuf.data b)
    = window (Z.to_nat N) s
}.

Definition is_string (v : value) : bool :=
  match v with
  | VString _ => true
  | _ => false
  end.

(** The environment mapping holds strings only, as the schema's input
    contract has it. *)
Definition env_strings (data : ResourceData) : bool :=
  forallb (fun kv => is_string (snd kv)) (environment data).

(** The ceiling: the value of [MAX_TIMEOUT], 0 when it is not set. *)
Definition ceiling (t : string) : Z + strconv.ErrKind :=
  if (String.length t =? 0)%nat then inl 0 else strconv.Atoi t.

(** The effective timeout in seconds: what lines 105-121 leave in [timeout]
    for the requested timeout [r] and the value [t] of [MAX_TIMEOUT]. *)
Definition effective_timeout (r : Z) (t : string) : option Z :=
  match fst (apply_max_timeout t r []) with
  | Next eff => Some eff
  | _ => None
  end.

(** [part] occurs in [whole]. *)
Definition embeds (part whole : string) : Prop :=
  exists pre post, whole = (pre ++ part ++ post)%string.

Definition is_spawn (ev : event) : bool :=
  match ev with
  | EvSpawn _ _ _ _ _ => true
  | _ => false
  end.

Definition is_pipe (ev : event) : bool :=
  match ev with
  | EvPipe => true
  | _ => false
  end.

Definition is_kill (ev : event) : bool :=
  match ev with
  | EvKill _ _ => true
  | _ => false
  end.

Definition is_getpgid (ev : event) : bool :=
  match ev with
  | EvGetpgid _ _ => true
  | _ => false
  end.

(** [cmd.Process], [err] and the time after lines 168-172, for a command
    context of duration [d]. *)
Definition process_call (w : World) (d : Z) : option Z * option cmderr * Z :=
  match cmd_Start w d with
  | inl err => (None, Some err, 0)
  | inr pid => let (err, now) := cmd_Wait w d in (Some pid, err, now)
  end.

(** The [select] dereferences a nil [cmd.Process]. *)
Definition select_panics (w : World) (d : Z) (process : option Z) (now : Z)
  : bool :=
  branch_eqb (select_branch w d now) TimeoutDone
  && negb (String.eqb (GOOS w) "windows")
  && match process with None => true | Some _ => false end.

(** The message of line 195. *)
Definition failure_message (w : World) (data : ResourceData) (e : cmderr)
  : string :=
  ("Error running command '" ++ command data ++ "': " ++ Error_text e
   ++ ". Output: " ++ string_of_list_byte (output_Bytes w))%string.

(** A call that got past the validation and the pipe, spelled out: [env]
    is the result of the environment loop, [eff] the effective timeout and
    [tr0] the log line of the ceiling, if any. *)
Definition supervised (w : World) (data : ResourceData) (env : list string)
    (eff : Z) (tr0 : list event) : result * list event :=
  let d := Duration_of_seconds eff in
  let cmdargs := cmdargs_of w data in
  let setpgid := negb (String.eqb (GOOS w) "windows") in
  let '(process, err, now) := process_call w d in
  (if select_panics w d process now
   then Panicked "invalid memory address or nil pointer dereference"
   else match err with
        | Some e => Failed (Errorf (failure_message w data e))
        | None => Ok
        end,
   tr0 ++ [EvPipe; EvWithTimeout d; EvGoCopyOutput; EvExecuting cmdargs]
   ++ snd (start_and_wait w d cmdargs (working_dir data) (Environ w ++ env)
             setpgid [])
   ++ [EvClosePw]
   ++ snd (final_select w d process now [])).

(** The two configuration errors: the empty command, and a value [t] of
    [MAX_TIMEOUT] that [Atoi] rejects. *)
Definition is_configuration_error (t : string) (e : error) : Prop :=
  e = Errorf "local-exec provisioner command must be a non-empty string"
  \/ exists k, e = NumError "Atoi" t k.

(** The events of the final [select]. *)
Definition is_select_event (ev : event) : bool :=
  match ev with
  | EvSelect _ _ | EvGetpgid _ _ | EvKill _ _ => true
  | _ => false
  end.

(** What the case [<-cmdCtx.Done()] does once the group lookup is made. *)
Definition group_signal (r : option Z) : list event :=
  match r with
  | Some pgid => [EvKill (wrap64 (- pgid)) 15]
  | None => []
  end.

(** What follows the [select] event in the trace. *)
Definition select_tail (w : World) (d : Z) (process : option Z) (now : Z)
  : list event :=
  if branch_eqb (select_branch w d now) TimeoutDone
     && negb (String.eqb (GOOS w) "windows")
  then match process with
       | Some pid =>
           EvGetpgid pid (Getpgid w (select_time w d now) pid)
           :: group_signal (Getpgid w (select_time w d now) pid)
       | None => []
       end
  else [].

(** The events of lines 168-172, from their result. *)
Definition call_trace (cmdargs : list string) (dir : string)
    (env : list string) (sp : bool) (call : option Z * option cmderr * Z)
  : list event :=
  match call with
  | (Some pid, err, now) => [EvSpawn pid cmdargs dir env sp; EvWait pid err now]
  | (None, Some e, _) => [EvStartFailed e]
  | (None, None, _) => []
  end.

(** The whole trace of a supervised call. *)
Definition supervised_trace (w : World) (data : ResourceData)
    (env : list string) (eff : Z) (tr0 : list event) : list event :=
  let d := Duration_of_seconds eff in
  let '(process, err, now) := process_call w d in
  tr0
  ++ [EvPipe; EvWithTimeout d; EvGoCopyOutput; EvExecuting (cmdargs_of w data)]
  ++ call_trace (cmdargs_of w data) (working_dir data) (Environ w ++ env)
       (negb (String.eqb (GOOS w) "windows")) (process, err, now)
  ++ [EvClosePw; EvSelect (select_branch w d now) (select_time w d now)]
  ++ select_tail w d process now.

(** The trace without the events of the final [select]. *)
Definition before_select (tr : list event) : list event :=
  filter (fun ev => negb (is_select_event ev)) tr.

(** ** Sample invocations *)

(** A Linux host without [MAX_TIMEOUT], on which the command gets pid 4242,
    exits with status 0 after five seconds, and the drain ends a
    millisecond later; the caller never cancels.  A lookup of the child's
    pid comes after the child was waited for, and fails. *)
Definition quiet_linux : World := {|
  GOOS := "linux";
  Getenv_MaxTimeOut := "";
  Environ := ["PATH=/bin"%string];
  pipe_error := None;
  lookpath_error := None;
  spawn_error := None;
  child_pid := 4242;
  exit_after := Some (5 * Second);
  exit_state := Exited 0;
  drained := [[x68; x69]];
  drain_done_after := Some (5 * Second + 1000000);
  caller_done_after := None;
  select_order := [];
  Getpgid := fun _ _ => None
|}.

(** The same host with another value of [MAX_TIMEOUT]. *)
Definition with_max_timeout (w : World) (t : string) : World := {|
  GOOS := GOOS w;
  Getenv_MaxTimeOut := t;
  Environ := Environ w;
  pipe_error := pipe_error w;
  lookpath_error := lookpath_error w;
  spawn_error := spawn_error w;
  child_pid := child_pid w;
  exit_after := exit_after w;
  exit_state := exit_state w;
  drained := drained w;
  drain_done_after := drain_done_after w;
  caller_done_after := caller_done_after w;
  select_order := select_order w;
  Getpgid := Getpgid w
|}.

(** The same world in which the caller's context is done at another time,
    or never. *)
Definition with_caller_done (w : World) (c : option Z) : World := {|
  GOOS := GOOS w;
  Getenv_MaxTimeOut := Getenv_MaxTimeOut w;
  Environ := Environ w;
  pipe_error := pipe_error w;
  lookpath_error := lookpath_error w;
  spawn_error := spawn_error w;
  child_pid := child_pid w;
  exit_after := exit_after w;
  exit_state := exit_state w;
  drained := drained w;
  drain_done_after := drain_done_after w;
  caller_done_after := c;
  select_order := select_order w;
  Getpgid := Getpgid w
|}.

(** The same world with another process: when and how it exits, and what
    [Getpgid] answers at which time. *)
Definition with_process (w : World) (exit : option Z) (st : ProcessState)
    (getpgid : Z -> Z -> option Z) : World := {|
  GOOS := GOOS w;
  Getenv_MaxTimeOut := Getenv_MaxTimeOut w;
  Environ := Environ w;
  pipe_error := pipe_error w;
  lookpath_error := lookpath_error w;
  spawn_error := spawn_error w;
  child_pid := child_pid w;
  exit_after := exit;
  exit_state := st;
  drained := drained w;
  drain_done_after := drain_done_after w;
  caller_done_after := caller_done_after w;
  select_order := select_order w;
  Getpgid := getpgid
|}.

(** [command = "echo hi"] with a timeout, if any. *)
Definition echo_hi (timeout : option Z) : ResourceData := {|
  command := "echo hi";
  environment := [("GREETING", VString "hi")]%string;
  interpreter := [];
  working_dir := "";
  timeout := timeout
|}.

(** An environment with a value that is no string. *)
Definition odd_environment (command : string) : ResourceData := {|
  command := command;
  environment := [("RETRIES", VInt 3)]%string;
  interpreter := [];
  working_dir := "";
  timeout := Some 10
|}.

(** The caller cancels one second after the start, while the command of
    [quiet_linux] is still running. *)
Definition cancelled_while_running : World :=
  with_caller_done quiet_linux (Some (1 * Second)).

(** The command exits with status 3 after two seconds. *)
Definition failing_command : World :=
  with_process quiet_linux (Some (2 * Second)) (Exited 3)
    (fun _ _ => None).


(** ** Vocabulary of the further properties *)

(** One entry of the command's environment (line 75). *)
Definition env_entry (kv : string * string) : string :=
  (fst kv ++ "=" ++ snd kv)%string.

(** An environment mapping whose values are strings. *)
Definition typed_environment (e : list (string * string))
  : list (string * value) :=
  map (fun kv => (fst kv, VString (snd kv))) e.

(** The log line of lines 105-121: written when [MAX_TIMEOUT] is set. *)
Definition log_trace (t : string) (eff : Z) : list event :=
  if (String.length t =? 0)%nat then [] else [EvLog eff].

Definition is_close (ev : event) : bool :=
  match ev with
  | EvClosePw => true
  | _ => false
  end.

(** The default shell of lines 90-94. *)
Definition default_shell (w : World) : list string :=
  if String.eqb (GOOS w) "windows" then ["cmd"; "/C"]%string
  else ["/bin/sh"; "-c"]%string.

(** The largest timeout in seconds whose duration in nanoseconds fits an
    [int64]. *)
Definition max_exact_timeout : Z := 9223372036.

(** A host that has run out of file descriptors, with a ceiling of thirty
    seconds. *)
Definition without_descriptors : World := {|
  GOOS := "linux";
  Getenv_MaxTimeOut := "30";
  Environ := ["PATH=/bin"%string];
  pipe_error := Some "too many open files"%string;
  lookpath_error := None;
  spawn_error := None;
  child_pid := 4242;
  exit_after := Some (5 * Second);
  exit_state := Exited 0;
  drained := [];
  drain_done_after := None;
  caller_done_after := None;
  select_order := [];
  Getpgid := fun _ _ => None
|}.

(** The command of [quiet_linux] never exits by itself. *)
Definition endless_command : World :=
  with_process quiet_linux None (Exited 0) (fun _ _ => None).

Definition is_log (ev : event) : bool :=
  match ev with
  | EvLog _ => true
  | _ => false
  end.

(** The interpreter is not installed; the drain ends within a
    millisecond. *)
Definition missing_interpreter : World := {|
  GOOS := "linux";
  Getenv_MaxTimeOut := "";
  Environ := ["PATH=/bin"%string];
  pipe_error := None;
  lookpath_error :=
    Some "exec: ksh: executable file not found in $PATH"%string;
  spawn_error := None;
  child_pid := 4242;
  exit_after := None;
  exit_state := Exited 0;
  drained := [];
  drain_done_after := Some 1000000;
  caller_done_after := None;
  select_order := [];
  Getpgid := fun _ _ => None
|}.

(** The command exits after five seconds, but a descendant keeps the write
    end of the pipe open: the drain never ends. *)
Definition pipe_held_open : World := {|
  GOOS := "linux";
  Getenv_MaxTimeOut := "";
  Environ := ["PATH=/bin"%string];
  pipe_error := None;
  lookpath_error := None;
  spawn_error := None;
  child_pid := 4242;
  exit_after := Some (5 * Second);
  exit_state := Exited 0;
  drained := [[x68; x69]];
  drain_done_after := None;
  caller_done_after := None;
  select_order := [];
  Getpgid := fun _ _ => None
|}.


Definition is_wait (ev : event) : bool :=
  match ev with
  | EvWait _ _ _ => true
  | _ => false
  end.

(** How many events of a trace satisfy [f]. *)
Definition count_events (f : event -> bool) (tr : list event) : nat :=
  length (filter f tr).
(** ** The process table *)


(** ** The environment of the process *)

(** An entry [key=value] cut at its first [=]; [None] for an entry
    without one. *)
Fixpoint cut_at_equals (kv : string) : option (string * string) :=
  match kv with
  | EmptyString => None
  | String c rest =>
      if Ascii.eqb c "="%char then Some (EmptyString, rest)
      else match cut_at_equals rest with
           | Some (k, v) => Some (String c k, v)
           | None => None
           end
  end.

Definition env_lookup_step (k : string) (found : option string)
    (kv : string) : option string :=
  match cut_at_equals kv with
  | Some (k', v) => if String.eqb k' k then Some v else found
  | None => found
  end.

(** What a process started with [cmd.Env = env] finds under the key [k],
    on a host that compares keys exactly: os/exec removes the duplicates
    of [cmd.Env] before it starts the process, and of the entries with the
    same key it keeps the value of the last. *)
Definition process_Getenv (env : list string) (k : string) : option string :=
  fold_left (env_lookup_step k) env None.

Fixpoint no_equals (k : string) : bool :=
  match k with
  | EmptyString => true
  | String c rest => negb (Ascii.eqb c "="%char) && no_equals rest
  end.

(** A key as environments have them: not empty, and without [=]. *)
Definition plain_key (k : string) : bool :=
  negb (String.eqb k "") && no_equals k.

(** A configuration that sets [PATH], which the host sets too. *)
Definition with_own_path : ResourceData := {|
  command := "echo hi";
  environment :=
    [("PATH", VString "/opt/bin"); ("GREETING", VString "hi")]%string;
  interpreter := [];
  working_dir := "";
  timeout := Some 10
|}.

(** ** Proof automation *)

(** Unfolds the operations of the monad [M]. *)
Ltac unfold_monad :=
  unfold bind, ret, emit, return_, panic in *;
  cbn [fst snd app negb andb] in *.

(** * Part II: lemmas and theorems *)

(** ** Machine integers *)

Lemma wrap64_small z : in_int64 z -> wrap64 z = z.
Proof.
  unfold in_int64, wrap64; intros H.
  rewrite Z.mod_small; lia.
Qed.

Lemma wrap64_range z : in_int64 (wrap64 z).
Proof.
  unfold in_int64, wrap64.
  pose proof (Z.mod_pos_bound (z + 2 ^ 63) (2 ^ 64) ltac:(lia)). lia.
Qed.

(** ** Slices *)

Section SliceFacts.
Context {A : Type}.
Implicit Types (l x y c r dst src : list A) (n off : nat).

Lemma lastn_length n l : length (lastn n l) = Nat.min n (length l).
Proof. unfold lastn. rewrite length_skipn. lia. Qed.

Lemma lastn_all n l : (length l <= n)%nat -> lastn n l = l.
Proof.
  unfold lastn; intros H.
  replace (length l - n)%nat with 0%nat by lia. reflexivity.
Qed.

Lemma lastn_suffix n x y : length y = n -> lastn n (x ++ y) = y.
Proof.
  intros <-. unfold lastn. rewrite length_app.
  replace (length x + length y - length y)%nat with (length x) by lia.
  rewrite skipn_app, skipn_all, Nat.sub_diag. reflexivity.
Qed.

Lemma lastn_lastn_app n x y : lastn n (x ++ lastn n y) = lastn n (x ++ y).
Proof.
  destruct (Nat.le_gt_cases (length y) n) as [H | H].
  - now rewrite (lastn_all n y).
  - rewrite (lastn_suffix n x (lastn n y)) by (rewrite lastn_length; lia).
    unfold lastn at 2. rewrite length_app, skipn_app.
    rewrite skipn_all2 by lia. simpl.
    unfold lastn. f_equal. lia.
Qed.

Lemma lastn_zeros_app (z : A) n l :
  (n <= length l)%nat -> lastn n (repeat z n ++ l) = lastn n l.
Proof.
  intros H. unfold lastn. rewrite length_app, repeat_length, skipn_app.
  rewrite skipn_all2 by (rewrite repeat_length; lia).
  rewrite repeat_length. simpl. f_equal. lia.
Qed.

Lemma copy_at_length dst off src :
  (off <= length dst)%nat -> length (copy_at dst off src) = length dst.
Proof.
  intros H. unfold copy_at.
  rewrite !length_app, !length_firstn, length_skipn. lia.
Qed.

(** The three shapes of [copy] a ring write uses. *)
Lemma copy_at_fit x y1 y2 c :
  length y1 = length c -> copy_at (x ++ y1 ++ y2) (length x) c = x ++ c ++ y2.
Proof.
  intros H. unfold copy_at.
  rewrite firstn_app, firstn_all, Nat.sub_diag. simpl. rewrite app_nil_r.
  f_equal. f_equal.
  - apply firstn_all2. rewrite !length_app. lia.
  - rewrite skipn_app, skipn_all2 by lia.
    replace (length x + length c - length x)%nat with (length y1) by lia.
    rewrite skipn_app, skipn_all, Nat.sub_diag. reflexivity.
Qed.

Lemma copy_at_cut x y c1 c2 :
  length y = length c1 -> copy_at (x ++ y) (length x) (c1 ++ c2) = x ++ c1.
Proof.
  intros H. unfold copy_at.
  rewrite firstn_app, firstn_all, Nat.sub_diag. simpl. rewrite app_nil_r.
  f_equal.
  rewrite length_app.
  replace (length x + length y - length x)%nat with (length c1) by lia.
  rewrite firstn_app, firstn_all, Nat.sub_diag. simpl. rewrite app_nil_r.
  rewrite skipn_all2 by (rewrite !length_app; lia).
  now rewrite app_nil_r.
Qed.

Lemma copy_at_front x1 r c :
  length x1 = length c -> copy_at (x1 ++ r) 0 c = c ++ r.
Proof. intros H. apply (copy_at_fit [] x1 r c H). Qed.

Lemma app_inv_length (a b c d : list A) :
  a ++ b = c ++ d -> length b = length d -> a = c /\ b = d.
Proof.
  intros H L.
  assert (La : length a = length c).
  { apply (f_equal (@length A)) in H. rewrite !length_app in H. lia. }
  split.
  - apply (f_equal (firstn (length a))) in H.
    rewrite firstn_app, firstn_all, Nat.sub_diag in H. simpl in H.
    rewrite La, firstn_app, firstn_all, Nat.sub_diag in H. simpl in H.
    now rewrite !app_nil_r in H.
  - apply (f_equal (skipn (length a))) in H.
    rewrite skipn_app, skipn_all, Nat.sub_diag in H. simpl in H.
    rewrite La, skipn_app, skipn_all, Nat.sub_diag in H. simpl in H.
    exact H.
Qed.

(** One write into a ring of [N] cells whose cursor is at [wc]: reading the
    ring from the new cursor gives the last [N] elements of what reading it
    from the old cursor gave, followed by the chunk. *)
Lemma ring_step (N wc : nat) (dat c : list A) :
  length dat = N -> (wc < N)%nat -> (length c <= N)%nat ->
  let data1 := copy_at dat wc c in
  let data2 := if (N - wc <? length c)%nat
               then copy_at data1 0 (skipn (N - wc) c) else data1 in
  let wc' := ((wc + length c) mod N)%nat in
  length data2 = N /\
  skipn wc' data2 ++ firstn wc' data2
  = lastn N ((skipn wc dat ++ firstn wc dat) ++ c).
Proof.
  intros HN Hwc Hc. cbv zeta.
  pose proof (firstn_skipn wc dat) as Hdat.
  assert (Hx : length (firstn wc dat) = wc) by (rewrite length_firstn; lia).
  assert (Hy : length (skipn wc dat) = (N - wc)%nat)
    by (rewrite length_skipn; lia).
  revert Hdat Hx Hy. generalize (firstn wc dat) (skipn wc dat).
  intros x y Hdat Hx Hy. subst dat wc. clear HN.
  destruct (N - length x <? length c)%nat eqn:E.
  - apply Nat.ltb_lt in E.
    pose proof (firstn_skipn (N - length x) c) as Hcs.
    assert (Hc1 : length (firstn (N - length x) c) = (N - length x)%nat)
      by (rewrite length_firstn; lia).
    assert (Hc2 : length (skipn (N - length x) c)
                  = (length c - (N - length x))%nat)
      by (rewrite length_skipn; lia).
    revert Hcs Hc1 Hc2.
    generalize (firstn (N - length x) c) (skipn (N - length x) c).
    intros c1 c2 Hcs Hc1 Hc2. subst c.
    rewrite copy_at_cut by lia.
    pose proof (firstn_skipn (length c2) x) as Hxs.
    assert (Hx1 : length (firstn (length c2) x) = length c2)
      by (rewrite length_firstn; rewrite length_app in *; lia).
    revert Hxs Hx1.
    generalize (firstn (length c2) x) (skipn (length c2) x).
    intros x1 x2 Hxs Hx1. subst x.
    rewrite !length_app in *.
    rewrite <- app_assoc, copy_at_front by exact Hx1.
    assert (Hm : ((length x1 + length x2 + (length c1 + length c2)) mod N
                  = length c2)%nat).
    { symmetry. apply Nat.mod_unique with (q := 1%nat); lia. }
    rewrite Hm. split.
    + rewrite !length_app. lia.
    + rewrite skipn_app, skipn_all, Nat.sub_diag. simpl.
      rewrite firstn_app, firstn_all, Nat.sub_diag. simpl.
      rewrite app_nil_r.
      replace ((y ++ x1 ++ x2) ++ c1 ++ c2)
        with ((y ++ x1) ++ (x2 ++ c1) ++ c2) by now rewrite <- !app_assoc.
      apply eq_sym, lastn_suffix. rewrite !length_app. lia.
  - apply Nat.ltb_ge in E.
    pose proof (firstn_skipn (length c) y) as Hys.
    assert (Hy1 : length (firstn (length c) y) = length c)
      by (rewrite length_firstn; lia).
    assert (Hy2 : length (skipn (length c) y)
                  = (N - length x - length c)%nat)
      by (rewrite length_skipn; lia).
    revert Hys Hy1 Hy2.
    generalize (firstn (length c) y) (skipn (length c) y).
    intros y1 y2 Hys Hy1 Hy2. subst y.
    rewrite copy_at_fit by exact Hy1.
    split.
    + rewrite !length_app in *. lia.
    + replace (((y1 ++ y2) ++ x) ++ c) with (y1 ++ (y2 ++ x ++ c))
        by now rewrite <- !app_assoc.
      rewrite lastn_suffix by (rewrite !length_app in *; lia).
      rewrite length_app in Hy.
      destruct (Nat.eq_dec (length x + length c) N) as [Heq | Hne].
      * rewrite Heq, Nat.Div0.mod_same. simpl.
        assert (y2 = []) by (apply length_zero_iff_nil; lia). subst y2.
        simpl. now rewrite !app_nil_r.
      * rewrite Nat.mod_small by lia.
        rewrite app_assoc.
        replace (length x + length c)%nat with (length (x ++ c))
          by (rewrite length_app; lia).
        rewrite skipn_app, skipn_all, Nat.sub_diag. simpl.
        rewrite firstn_app, firstn_all, Nat.sub_diag. simpl.
        now rewrite ?app_nil_r, <- ?app_assoc.
Qed.

End SliceFacts.

(** ** The bounded output buffer *)

Section LastnFacts.
Context {A : Type}.
Implicit Types (l x y : list A) (n m : nat).

Lemma lastn_lastn m n l : (m <= n)%nat -> lastn m (lastn n l) = lastn m l.
Proof.
  intros H. unfold lastn. rewrite length_skipn, skipn_skipn. f_equal. lia.
Qed.

Lemma lastn_app_r n x y :
  (length y <= n)%nat -> lastn n (x ++ y) = lastn (n - length y) x ++ y.
Proof.
  unfold lastn; intros H. rewrite length_app, skipn_app.
  replace (length x + length y - n)%nat
    with (length x - (n - length y))%nat by lia.
  replace (length x - (n - length y) - length x)%nat with 0%nat by lia.
  reflexivity.
Qed.

Lemma lastn_app_long n x y :
  (n <= length y)%nat -> lastn n (x ++ y) = lastn n y.
Proof.
  intros H. unfold lastn. rewrite length_app, skipn_app.
  rewrite skipn_all2 by lia. simpl. f_equal. lia.
Qed.

Lemma lastn_lastn_app_l n x y : lastn n (lastn n x ++ y) = lastn n (x ++ y).
Proof.
  destruct (Nat.le_gt_cases n (length y)) as [H | H].
  - now rewrite !lastn_app_long.
  - rewrite !lastn_app_r by lia. f_equal. apply lastn_lastn. lia.
Qed.

End LastnFacts.

Lemma window_length N s : length (window N s) = N.
Proof.
  unfold window. rewrite lastn_length, length_app, repeat_length. lia.
Qed.

Lemma window_app N s c :
  window N (s ++ c) = lastn N (window N s ++ lastn N c).
Proof.
  unfold window. now rewrite lastn_lastn_app, lastn_lastn_app_l, app_assoc.
Qed.

Lemma window_full N s : (N <= length s)%nat -> window N s = lastn N s.
Proof. intros H. unfold window. now apply lastn_app_long. Qed.

Lemma window_short N s :
  (length s <= N)%nat -> window N s = repeat x00 (N - length s) ++ s.
Proof.
  intros H. unfold window. rewrite lastn_app_r by exact H. f_equal.
  unfold lastn. rewrite repeat_length.
  replace (N - (N - length s))%nat with (length s) by lia.
  replace N with (length s + (N - length s))%nat at 1 by lia.
  rewrite repeat_app, skipn_app, skipn_all2 by (rewrite repeat_length; lia).
  rewrite repeat_length, Nat.sub_diag. reflexivity.
Qed.

Lemma NewBuffer_inv N b :
  circbuf.NewBuffer N = Some b -> 0 < N /\ ring_inv N [] b.
Proof.
  unfold circbuf.NewBuffer. destruct (N <=? 0) eqn:E; [discriminate|].
  intros [= <-]. apply Z.leb_gt in E. split; [exact E|].
  constructor; cbn [circbuf.size circbuf.data circbuf.written
                    circbuf.writeCursor length].
  - reflexivity.
  - apply repeat_length.
  - reflexivity.
  - lia.
  - intros _. now rewrite Z.mod_0_l by lia.
  - change (Z.to_nat 0) with 0%nat. rewrite skipn_O, firstn_O, app_nil_r.
    rewrite window_short by (simpl; lia).
    simpl. now rewrite Nat.sub_0_r, app_nil_r.
Qed.

(** The oversized-write cut of [Write] keeps the last [size] bytes. *)
Lemma Write_cut N (c : list byte) :
  0 < N ->
  (if Z.of_nat (length c) >? N
   then skipn (Z.to_nat (Z.of_nat (length c) - N)) c else c)
  = lastn (Z.to_nat N) c.
Proof.
  intros HN. destruct (Z.of_nat (length c) >? N) eqn:E.
  - unfold lastn. f_equal. lia.
  - symmetry. apply lastn_all. lia.
Qed.

Lemma Write_inv N s b c :
  0 < N -> ring_inv N s b -> Z.of_nat (length (s ++ c)) < 2 ^ 63 ->
  ring_inv N (s ++ c) (fst (circbuf.Write b c))
  /\ snd (circbuf.Write b c) = (Z.of_nat (length c), None).
Proof.
  intros HN [Hsize Hlen Hwr Hcur Hsmall Hring] Hfit.
  split; [|reflexivity].
  unfold circbuf.Write. cbn [fst].
  rewrite Hsize, Write_cut by exact HN.
  set (c' := lastn (Z.to_nat N) c).
  assert (Hc' : length c' = Nat.min (Z.to_nat N) (length c))
    by apply lastn_length.
  destruct (ring_step (Z.to_nat N) (Z.to_nat (circbuf.writeCursor b))
              (circbuf.data b) c') as [Hl Hr]; [exact Hlen | lia | lia |].
  assert (Hcond : (Z.of_nat (length c') >? N - circbuf.writeCursor b)
                  = (Z.to_nat N - Z.to_nat (circbuf.writeCursor b)
                     <? length c')%nat).
  { destruct (Z.to_nat N - Z.to_nat (circbuf.writeCursor b) <? length c')%nat
      eqn:E; [apply Nat.ltb_lt in E | apply Nat.ltb_ge in E]; lia. }
  assert (Hrem : Z.to_nat (N - circbuf.writeCursor b)
                 = (Z.to_nat N - Z.to_nat (circbuf.writeCursor b))%nat) by lia.
  assert (Hcur' :
    Z.rem (circbuf.writeCursor b + Z.of_nat (length c')) N
    = Z.of_nat ((Z.to_nat (circbuf.writeCursor b) + length c')
                  mod Z.to_nat N)).
  { rewrite Z.rem_mod_nonneg by lia.
    rewrite Nat2Z.inj_mod, Nat2Z.inj_add, !Z2Nat.id by lia. reflexivity. }
  rewrite Hcond, Hrem.
  constructor; cbn [circbuf.size circbuf.data circbuf.written
                    circbuf.writeCursor].
  - reflexivity.
  - exact Hl.
  - rewrite Hwr, <- Nat2Z.inj_add, <- length_app.
    apply wrap64_small. unfold in_int64. lia.
  - rewrite Z.rem_mod_nonneg by lia. apply Z.mod_pos_bound. lia.
  - intros Hle. rewrite length_app in Hle.
    rewrite Z.rem_mod_nonneg by lia.
    replace (length c') with (length c) by lia.
    rewrite Hsmall by lia.
    rewrite Z.add_mod_idemp_l by lia.
    now rewrite length_app, Nat2Z.inj_add.
  - rewrite Hcur', Nat2Z.id, Hr, Hring. symmetry. apply window_app.
Qed.

Lemma Bytes_inv N s b :
  0 < N -> ring_inv N s b ->
  circbuf.Bytes b = lastn (Z.to_nat N) s.
Proof.
  intros HN [Hsize Hlen Hwr Hcur Hsmall Hring].
  unfold circbuf.Bytes. rewrite Hsize, Hwr.
  destruct ((Z.of_nat (length s) >=? N) && (circbuf.writeCursor b =? 0))
    eqn:E1.
  - apply andb_true_iff in E1 as [Hge H0].
    apply Z.eqb_eq in H0. rewrite H0 in Hring.
    change (Z.to_nat 0) with 0%nat in Hring.
    rewrite skipn_O, firstn_O, app_nil_r in Hring.
    rewrite Hring. apply window_full. lia.
  - destruct (Z.of_nat (length s) >? N) eqn:E2.
    + rewrite <- (window_full (Z.to_nat N) s) by lia. rewrite <- Hring.
      set (wc := Z.to_nat (circbuf.writeCursor b)).
      assert (Hy : length (skipn wc (circbuf.data b))
                   = (Z.to_nat N - wc)%nat) by (rewrite length_skipn; lia).
      assert (Hx : length (firstn wc (circbuf.data b)) = wc)
        by (rewrite length_firstn; lia).
      replace (Z.to_nat (N - circbuf.writeCursor b))
        with (length (skipn wc (circbuf.data b))) by lia.
      replace (Z.to_nat N) with ((Z.to_nat N - wc) + wc)%nat at 1 by lia.
      rewrite repeat_app.
      rewrite copy_at_front by (rewrite repeat_length; lia).
      rewrite <- (app_nil_r (repeat x00 wc)).
      rewrite copy_at_fit by (rewrite repeat_length; lia).
      now rewrite app_nil_r.
    + assert (Hlt : Z.of_nat (length s) < N).
      { destruct (Z.eq_dec (Z.of_nat (length s)) N) as [Heq | Hne]; [|lia].
        exfalso. rewrite Hsmall in E1 by lia.
        rewrite Heq, Z.mod_same, Z.eqb_refl, andb_true_r in E1 by lia.
        lia. }
      rewrite Hsmall, Z.mod_small, Nat2Z.id in * by lia.
      rewrite window_short in Hring by lia.
      apply app_inv_length in Hring as [_ Hs].
      * rewrite Hs. symmetry. apply lastn_all. lia.
      * rewrite length_firstn. lia.
Qed.

Lemma WriteAll_inv N chunks : forall s b,
  0 < N -> ring_inv N s b ->
  Z.of_nat (length (s ++ concat chunks)) < 2 ^ 63 ->
  ring_inv N (s ++ concat chunks) (fst (circbuf.WriteAll b chunks))
  /\ snd (circbuf.WriteAll b chunks)
     = map (fun c => (Z.of_nat (length c), None)) chunks.
Proof.
  induction chunks as [|c rest IH]; intros s b HN Hinv Hfit.
  - simpl. rewrite app_nil_r. split; [exact Hinv | reflexivity].
  - simpl concat in *. rewrite app_assoc in Hfit |- *.
    destruct (Write_inv N s b c HN Hinv) as [Hinv1 Hres1].
    { rewrite !length_app in *. lia. }
    specialize (IH (s ++ c) (fst (circbuf.Write b c)) HN Hinv1 Hfit).
    destruct IH as [IH1 IH2].
    cbn [circbuf.WriteAll].
    destruct (circbuf.Write b c) as [b1 r] eqn:Ew. cbn [fst snd] in *.
    destruct (circbuf.WriteAll b1 rest) as [b2 rs] eqn:Ea. cbn [fst snd] in *.
    split; [exact IH1|]. cbn [map]. now rewrite Hres1, IH2.
Qed.

(** ** C7 *)

(** C7. For every sequence of byte writes into the bounded output buffer
    (the [circbuf.Buffer] of capacity [maxBufSize] = 8 KiB that [applyFn]
    creates), the buffer retains at most 8192 bytes, every write succeeds
    (it returns the length of its argument and no error), and the retained
    bytes are exactly the last 8192 bytes of the whole stream, or all of it
    if it is shorter.  The stream is shorter than 2^63 bytes, the range of
    the buffer's [int64] counter of written bytes. *)
Theorem bounded_buffer_keeps_recent_bytes (chunks : list (list byte)) :
  Z.of_nat (length (concat chunks)) < 2 ^ 63 ->
  maxBufSize = 8192 /\
  exists output, circbuf.NewBuffer maxBufSize = Some output /\
    let b := fst (circbuf.WriteAll output chunks) in
    Z.of_nat (length (circbuf.Bytes b)) <= 8192
    /\ snd (circbuf.WriteAll output chunks)
       = map (fun c => (Z.of_nat (length c), None)) chunks
    /\ circbuf.Bytes b = lastn (Z.to_nat 8192) (concat chunks).
Proof.
  intros Hfit. split; [reflexivity|].
  destruct (circbuf.NewBuffer maxBufSize) as [output|] eqn:E;
    [|discriminate E].
  exists output. split; [reflexivity|].
  intros b.
  apply NewBuffer_inv in E as [HN Hinv].
  destruct (WriteAll_inv maxBufSize chunks [] output HN Hinv Hfit)
    as [Hinv' Hres].
  pose proof (Bytes_inv maxBufSize _ _ HN Hinv') as HB.
  change maxBufSize with 8192 in HB. cbn [app] in HB.
  subst b. rewrite HB. repeat split.
  - rewrite lastn_length. lia.
  - exact Hres.
Qed.

Lemma bounded_buffer_keeps_recent_bytes_witness :
  Z.of_nat (length (concat [[x61; x62]; [x63]])) < 2 ^ 63 /\
  (maxBufSize = 8192 /\
   exists output, circbuf.NewBuffer maxBufSize = Some output /\
    let b := fst (circbuf.WriteAll output [[x61; x62]; [x63]]) in
    Z.of_nat (length (circbuf.Bytes b)) <= 8192
    /\ snd (circbuf.WriteAll output [[x61; x62]; [x63]])
       = map (fun c => (Z.of_nat (length c), None)) [[x61; x62]; [x63]]
    /\ circbuf.Bytes b = lastn (Z.to_nat 8192) (concat [[x61; x62]; [x63]])).
Proof.
  split; [simpl; lia|].
  apply (bounded_buffer_keeps_recent_bytes [[x61; x62]; [x63]]).
  simpl; lia.
Defined.

(** What [applyFn] reads back from its buffer is the tail of what the tee
    reader has written into it. *)
Lemma output_Bytes_tail w :
  Z.of_nat (length (concat (drained w))) < 2 ^ 63 ->
  output_Bytes w = lastn (Z.to_nat maxBufSize) (concat (drained w)).
Proof.
  intros Hfit. unfold output_Bytes.
  destruct (circbuf.NewBuffer maxBufSize) as [output|] eqn:E;
    [|discriminate E].
  apply NewBuffer_inv in E as [HN Hinv].
  destruct (WriteAll_inv maxBufSize (drained w) [] output HN Hinv Hfit)
    as [Hinv' _].
  apply (Bytes_inv maxBufSize _ _ HN Hinv').
Qed.

(** Ten times the capacity, written in chunks of 4 KiB: the last 8 KiB
    stay. *)
Example buffer_overflow_example :
  let chunk i := repeat i 4096%nat in
  let chunks := flat_map (fun i => [chunk i; chunk i])
                  [x01; x02; x03; x04; x05; x06; x07; x08; x09; x0a] in
  match circbuf.NewBuffer maxBufSize with
  | Some output =>
      circbuf.Bytes (fst (circbuf.WriteAll output chunks))
      = chunk x0a ++ chunk x0a
  | None => False
  end.
Proof. vm_compute. reflexivity. Qed.

(** ** The blocks of [applyFn] *)

Lemma env_entries_strings environment : forall env tr,
  forallb (fun kv => is_string (snd kv)) environment = true ->
  exists env', env_entries environment env tr = (Next env', tr).
Proof.
  induction environment as [|[k v] rest IH]; intros env tr H; simpl in *.
  - now exists env.
  - apply andb_true_iff in H as [Hv Hr]. destruct v; try discriminate.
    now apply IH.
Qed.

Lemma env_entries_not_strings environment : forall env tr,
  forallb (fun kv => is_string (snd kv)) environment = false ->
  env_entries environment env tr
  = (Panic "interface conversion: interface {} is not string", tr).
Proof.
  induction environment as [|[k v] rest IH]; intros env tr H; simpl in *.
  - discriminate.
  - destruct v; simpl in H; try reflexivity. now apply IH.
Qed.

(** Lines 105-121 either stop with the error of [Atoi] and no effect, or
    go on with a timeout after at most one log line. *)
Lemma apply_max_timeout_cases t r tr :
  (exists k, (String.length t =? 0)%nat = false /\ strconv.Atoi t = inr k
             /\ apply_max_timeout t r tr
                = (Return (Some (NumError "Atoi" t k)), tr))
  \/ (exists eff tr0, apply_max_timeout t r [] = (Next eff, tr0)
                      /\ apply_max_timeout t r tr = (Next eff, tr ++ tr0)
                      /\ forall ev, In ev tr0 -> ev = EvLog eff).
Proof.
  unfold apply_max_timeout.
  destruct (String.length t =? 0)%nat eqn:El; cbn [negb].
  - right. exists r, []. unfold ret. rewrite app_nil_r.
    repeat split. intros ev [].
  - destruct (strconv.Atoi t) as [m | k] eqn:Ea.
    + right. eexists. eexists. unfold_monad.
      repeat split. intros ev [<- | []]. reflexivity.
    + left. exists k. repeat split.
Qed.

Lemma start_and_wait_frame w d cmdargs dir env sp tr :
  start_and_wait w d cmdargs dir env sp tr
  = (Next (process_call w d),
     tr ++ snd (start_and_wait w d cmdargs dir env sp [])).
Proof.
  unfold start_and_wait, process_call.
  destruct (cmd_Start w d) as [err | pid]; unfold_monad; [reflexivity|].
  destruct (cmd_Wait w d) as [err now]. unfold_monad.
  now rewrite <- app_assoc.
Qed.

Lemma final_select_frame w d process now tr :
  final_select w d process now tr
  = (if select_panics w d process now
     then Panic "invalid memory address or nil pointer dereference"
     else Next tt,
     tr ++ snd (final_select w d process now [])).
Proof.
  unfold final_select, select_panics, kill_group.
  destruct (select_branch w d now); unfold_monad; try reflexivity.
  destruct (String.eqb (GOOS w) "windows"); unfold_monad; [reflexivity|].
  destruct process as [pid|]; unfold_monad; [|reflexivity].
  destruct (Getpgid w (select_time w d now) pid); unfold_monad; simpl;
    now rewrite <- ?app_assoc.
Qed.

(** *** The five ways through [applyFn] *)

Section Ways.
Variables (w : World) (data : ResourceData).

Lemma run_empty_command :
  command data = ""%string ->
  run w data
  = (Failed (Errorf
       "local-exec provisioner command must be a non-empty string"), []).
Proof.
  intros Hc. unfold run, applyFn. now rewrite Hc.
Qed.

Lemma run_bad_environment :
  command data <> ""%string -> env_strings data = false ->
  run w data
  = (Panicked "interface conversion: interface {} is not string", []).
Proof.
  intros Hc He. apply String.eqb_neq in Hc.
  unfold run, applyFn, bind. rewrite Hc.
  now rewrite env_entries_not_strings by exact He.
Qed.

Lemma run_bad_ceiling k :
  command data <> ""%string -> env_strings data = true ->
  (String.length (Getenv_MaxTimeOut w) =? 0)%nat = false ->
  strconv.Atoi (Getenv_MaxTimeOut w) = inr k ->
  run w data = (Failed (NumError "Atoi" (Getenv_MaxTimeOut w) k), []).
Proof.
  intros Hc He Hl Ha. apply String.eqb_neq in Hc.
  destruct (env_entries_strings _ [] [] He) as [env Henv].
  unfold run, applyFn, bind. rewrite Hc, Henv.
  unfold apply_max_timeout. now rewrite Hl, Ha.
Qed.

Lemma run_no_pipe eff tr0 reason :
  command data <> ""%string -> env_strings data = true ->
  apply_max_timeout (Getenv_MaxTimeOut w) (requested_timeout data) []
  = (Next eff, tr0) ->
  pipe_error w = Some reason ->
  run w data
  = (Failed (Errorf ("failed to initialize pipe for output: " ++ reason)),
     tr0).
Proof.
  intros Hc He Hm Hp. apply String.eqb_neq in Hc.
  destruct (env_entries_strings _ [] [] He) as [env Henv].
  unfold run, applyFn, bind. rewrite Hc, Henv. rewrite Hm.
  unfold open_pipe. now rewrite Hp.
Qed.

Lemma run_supervised env eff tr0 :
  command data <> ""%string ->
  env_entries (environment data) [] [] = (Next env, []) ->
  apply_max_timeout (Getenv_MaxTimeOut w) (requested_timeout data) []
  = (Next eff, tr0) ->
  pipe_error w = None ->
  run w data = supervised w data env eff tr0.
Proof.
  intros Hc Henv Hm Hp. apply String.eqb_neq in Hc.
  unfold run, applyFn, bind. rewrite Hc, Henv. rewrite Hm.
  unfold open_pipe. rewrite Hp. unfold emit at 1 2 3 4.
  rewrite start_and_wait_frame. unfold supervised.
  destruct (process_call w (Duration_of_seconds eff)) as [[process err] now].
  unfold emit at 1. rewrite final_select_frame.
  rewrite <- !app_assoc. cbn [app].
  destruct (select_panics w (Duration_of_seconds eff) process now).
  - reflexivity.
  - unfold result_of, return_. destruct err; reflexivity.
Qed.

(** Every call takes one of them. *)
Lemma run_cases :
  (command data = ""%string
   /\ run w data
      = (Failed (Errorf
           "local-exec provisioner command must be a non-empty string"), []))
  \/ (command data <> ""%string /\ env_strings data = false
      /\ run w data
         = (Panicked "interface conversion: interface {} is not string", []))
  \/ (command data <> ""%string /\ env_strings data = true
      /\ exists k, (String.length (Getenv_MaxTimeOut w) =? 0)%nat = false
                   /\ strconv.Atoi (Getenv_MaxTimeOut w) = inr k
                   /\ run w data
                      = (Failed (NumError "Atoi" (Getenv_MaxTimeOut w) k),
                         []))
  \/ (command data <> ""%string /\ env_strings data = true
      /\ exists eff tr0 reason,
           apply_max_timeout (Getenv_MaxTimeOut w) (requested_timeout data) []
           = (Next eff, tr0)
           /\ (forall ev, In ev tr0 -> ev = EvLog eff)
           /\ pipe_error w = Some reason
           /\ run w data
              = (Failed (Errorf
                   ("failed to initialize pipe for output: " ++ reason)),
                 tr0))
  \/ (command data <> ""%string /\ env_strings data = true
      /\ exists eff tr0 env,
           env_entries (environment data) [] [] = (Next env, [])
           /\ apply_max_timeout (Getenv_MaxTimeOut w)
                (requested_timeout data) [] = (Next eff, tr0)
           /\ (forall ev, In ev tr0 -> ev = EvLog eff)
           /\ pipe_error w = None
           /\ run w data = supervised w data env eff tr0).
Proof.
  destruct (String.eqb (command data) "") eqn:Ec.
  { apply String.eqb_eq in Ec. left. split; [exact Ec|].
    now apply run_empty_command. }
  apply String.eqb_neq in Ec. right.
  destruct (env_strings data) eqn:Ee.
  2:{ left. repeat split; [exact Ec|]. now apply run_bad_environment. }
  right. destruct (env_entries_strings _ [] [] Ee) as [env Henv].
  destruct (apply_max_timeout_cases (Getenv_MaxTimeOut w)
              (requested_timeout data) []) as
    [(k & Hl & Ha & Hm) | (eff & tr0 & Hm & _ & Hlog)].
  { left. repeat split; [exact Ec|]. exists k. repeat split; try assumption.
    now apply run_bad_ceiling. }
  right.
  destruct (pipe_error w) as [reason|] eqn:Ep.
  { left. repeat split; [exact Ec|]. exists eff, tr0, reason.
    repeat split; try assumption. now apply run_no_pipe with (eff := eff). }
  right. repeat split; [exact Ec|]. exists eff, tr0, env.
  repeat split; try assumption. now apply run_supervised.
Qed.

End Ways.

(** *** Where each event comes from *)

Lemma start_and_wait_events w d cmdargs dir env sp ev :
  In ev (snd (start_and_wait w d cmdargs dir env sp [])) ->
  (exists err, cmd_Start w d = inl err
               /\ process_call w d = (None, Some err, 0)
               /\ ev = EvStartFailed err)
  \/ (exists pid err now,
        cmd_Start w d = inr pid /\ cmd_Wait w d = (err, now)
        /\ process_call w d = (Some pid, err, now)
        /\ (ev = EvSpawn pid cmdargs dir env sp \/ ev = EvWait pid err now)).
Proof.
  unfold start_and_wait, process_call.
  destruct (cmd_Start w d) as [err | pid]; unfold_monad.
  - intros [<- | []]. left. now exists err.
  - destruct (cmd_Wait w d) as [err now]. unfold_monad.
    intros [<- | [<- | []]]; right; exists pid, err, now; auto.
Qed.

Lemma final_select_events w d process now ev :
  In ev (snd (final_select w d process now [])) ->
  ev = EvSelect (select_branch w d now) (select_time w d now)
  \/ (select_branch w d now = TimeoutDone
      /\ String.eqb (GOOS w) "windows" = false
      /\ exists pid, process = Some pid
         /\ (ev = EvGetpgid pid (Getpgid w (select_time w d now) pid)
             \/ exists pgid,
                  Getpgid w (select_time w d now) pid = Some pgid
                  /\ ev = EvKill (wrap64 (- pgid)) 15)).
Proof.
  unfold final_select, kill_group.
  destruct (select_branch w d now); unfold_monad;
    try (intros [<- | []]; now left).
  destruct (String.eqb (GOOS w) "windows"); unfold_monad;
    try (intros [<- | []]; now left).
  destruct process as [pid|]; unfold_monad;
    try (intros [<- | []]; now left).
  destruct (Getpgid w (select_time w d now) pid) as [pgid|] eqn:Eg;
    unfold_monad.
  - intros [<- | [<- | [<- | []]]]; [now left | right | right];
      repeat split; exists pid; (split; [reflexivity|]); rewrite Eg.
    + now left.
    + right. now exists pgid.
  - intros [<- | [<- | []]]; [now left | right].
    repeat split. exists pid. split; [reflexivity|]. rewrite Eg. now left.
Qed.

Lemma supervised_events w data env eff tr0 ev :
  In ev (snd (supervised w data env eff tr0)) ->
  let d := Duration_of_seconds eff in
  exists process err now,
    process_call w d = (process, err, now)
    /\ (In ev tr0
        \/ In ev [EvPipe; EvWithTimeout d; EvGoCopyOutput;
                  EvExecuting (cmdargs_of w data); EvClosePw]
        \/ In ev (snd (start_and_wait w d (cmdargs_of w data)
                         (working_dir data) (Environ w ++ env)
                         (negb (String.eqb (GOOS w) "windows")) []))
        \/ In ev (snd (final_select w d process now []))).
Proof.
  intros H d. unfold supervised in H. fold d in H.
  destruct (process_call w d) as [[process err] now].
  exists process, err, now. split; [reflexivity|].
  cbn [snd] in H.
  repeat (apply in_app_or in H as [H | H]); auto.
  - right. left. simpl in *. tauto.
  - right. left. simpl in *. destruct H as [<- | []]. tauto.
Qed.

(** The result of a supervised call. *)
Lemma supervised_result w data env eff tr0 process err now :
  process_call w (Duration_of_seconds eff) = (process, err, now) ->
  fst (supervised w data env eff tr0)
  = if select_panics w (Duration_of_seconds eff) process now
    then Panicked "invalid memory address or nil pointer dereference"
    else match err with
         | Some e => Failed (Errorf (failure_message w data e))
         | None => Ok
         end.
Proof.
  intros H. unfold supervised. now rewrite H.
Qed.

Lemma select_panics_started w d pid now :
  select_panics w d (Some pid) now = false.
Proof. unfold select_panics. now rewrite andb_false_r. Qed.

(** ** C6 *)

(** C6. For every command that starts successfully (the trace has the
    spawn) and exits with status 0 before the deadline [d] of its command
    context, the call returns no error: the outcome is Success.  Nothing is
    assumed of the output: the chunks drained from the pipe, and whether
    and when the drain ends, are arbitrary. *)
Theorem exit_zero_before_deadline_is_success
    (w : World) (data : ResourceData) (d t pid : Z) (argv : list string)
    (dir : string) (env : list string) (sp : bool) :
  In (EvWithTimeout d) (snd (run w data)) ->
  In (EvSpawn pid argv dir env sp) (snd (run w data)) ->
  exit_after w = Some t -> t < d -> exit_state w = Exited 0 ->
  fst (run w data) = Ok.
Proof.
  intros Hd Hs Hexit Hlt Hst.
  destruct (run_cases w data) as
    [[_ Hr] | [(_ & _ & Hr) | [(_ & _ & k & _ & _ & Hr)
    | [(_ & _ & eff & tr0 & reason & _ & Hlog & _ & Hr)
    | (_ & _ & eff & tr0 & env' & _ & _ & Hlog & _ & Hr)]]]];
    rewrite Hr in *; cbn [fst snd] in *;
    try contradiction.
  { apply Hlog in Hs. discriminate. }
  apply supervised_events in Hd as (p1 & e1 & n1 & Hc1 & Hd).
  apply supervised_events in Hs as (p2 & e2 & n2 & Hc2 & Hs).
  assert (Hdeq : d = Duration_of_seconds eff).
  { destruct Hd as [Hd | [Hd | [Hd | Hd]]].
    - apply Hlog in Hd. discriminate.
    - simpl in Hd. intuition congruence.
    - apply start_and_wait_events in Hd
        as [(? & _ & _ & ?) | (? & ? & ? & _ & _ & _ & [? | ?])];
        discriminate.
    - apply final_select_events in Hd
        as [? | (_ & _ & ? & _ & [? | (? & _ & ?)])]; discriminate. }
  subst d.
  assert (Hcall : process_call w (Duration_of_seconds eff)
                  = (Some pid, None, t)).
  { destruct Hs as [Hs | [Hs | [Hs | Hs]]].
    - apply Hlog in Hs. discriminate.
    - simpl in Hs. intuition discriminate.
    - apply start_and_wait_events in Hs
        as [(? & _ & _ & ?) | (pid' & err & now & _ & Hw & Hp & [He | He])];
        try discriminate.
      injection He as <- _ _ _ _. rewrite Hp. unfold cmd_Wait in Hw.
      rewrite Hexit, Hst in Hw. apply Z.ltb_lt in Hlt. rewrite Hlt in Hw.
      cbn in Hw. now injection Hw as <- <-.
    - apply final_select_events in Hs
        as [? | (_ & _ & ? & _ & [? | (? & _ & ?)])]; discriminate. }
  rewrite (supervised_result _ _ _ _ _ _ _ _ Hcall).
  now rewrite select_panics_started.
Qed.

Lemma exit_zero_before_deadline_is_success_witness :
  In (EvWithTimeout (10 * Second)) (snd (run quiet_linux (echo_hi (Some 10))))
  /\ In (EvSpawn 4242 ["/bin/sh"; "-c"; "echo hi"]%string ""
           ["PATH=/bin"; "GREETING=hi"]%string true)
        (snd (run quiet_linux (echo_hi (Some 10))))
  /\ exit_after quiet_linux = Some (5 * Second)
  /\ 5 * Second < 10 * Second
  /\ exit_state quiet_linux = Exited 0
  /\ fst (run quiet_linux (echo_hi (Some 10))) = Ok.
Proof.
  assert (H1 : In (EvWithTimeout (10 * Second))
                 (snd (run quiet_linux (echo_hi (Some 10)))))
    by (vm_compute; tauto).
  assert (H2 : In (EvSpawn 4242 ["/bin/sh"; "-c"; "echo hi"]%string ""
                     ["PATH=/bin"; "GREETING=hi"]%string true)
                 (snd (run quiet_linux (echo_hi (Some 10)))))
    by (vm_compute; tauto).
  assert (H4 : 5 * Second < 10 * Second) by (vm_compute; reflexivity).
  refine (conj H1 (conj H2 (conj eq_refl (conj H4 (conj eq_refl _))))).
  exact (exit_zero_before_deadline_is_success quiet_linux (echo_hi (Some 10))
           _ _ _ _ _ _ _ H1 H2 eq_refl H4 eq_refl).
Defined.

(** ** C2 *)

(** C2. For the requested timeout [r] and the ceiling [c] read from
    [MAX_TIMEOUT] (0 when the variable is not set), the effective timeout
    is [min r c] when [c > 0] (for a request that was made, [r <> 0]: the
    next clause gives the value at [r = 0]), is [c] when [r = 0] and
    [c > 0], and is [r] when [c = 0].  In particular requested 10 with
    ceiling 5 yields 5, requested 0 with ceiling 5 yields 5, and requested
    10 with ceiling 0 yields 10. *)
Theorem effective_timeout_is_capped_request (r : Z) (t : string) (c : Z) :
  ceiling t = inl c ->
  (exists eff, effective_timeout r t = Some eff
     /\ (0 < c -> r <> 0 -> eff = Z.min r c)
     /\ (r = 0 -> 0 < c -> eff = c)
     /\ (c = 0 -> eff = r))
  /\ effective_timeout 10 "5" = Some 5
  /\ effective_timeout 0 "5" = Some 5
  /\ effective_timeout 10 "0" = Some 10
  /\ effective_timeout 10 "" = Some 10.
Proof.
  intros Hc. split; [|repeat split].
  unfold ceiling in Hc. unfold effective_timeout, apply_max_timeout.
  destruct (String.length t =? 0)%nat; cbn [negb].
  - injection Hc as <-. exists r. cbn. repeat split; intros; lia.
  - rewrite Hc. unfold_monad.
    eexists. split; [reflexivity|].
    destruct (r >? c) eqn:E1; destruct (c =? 0) eqn:E2; cbn [andb negb];
      try destruct (c =? 0) eqn:E3; try destruct (r =? 0) eqn:E4;
      repeat split; intros; lia.
Qed.

Lemma effective_timeout_is_capped_request_witness :
  ceiling "5" = inl 5
  /\ (exists eff, effective_timeout 10 "5" = Some eff
        /\ (0 < 5 -> 10 <> 0 -> eff = Z.min 10 5)
        /\ (10 = 0 -> 0 < 5 -> eff = 5)
        /\ (5 = 0 -> eff = 10))
  /\ effective_timeout 10 "5" = Some 5
  /\ effective_timeout 0 "5" = Some 5
  /\ effective_timeout 10 "0" = Some 10
  /\ effective_timeout 10 "" = Some 10.
Proof.
  split; [reflexivity|].
  apply (effective_timeout_is_capped_request 10 "5" 5). reflexivity.
Defined.

(** The command context of a supervised call is made from the effective
    timeout. *)
Lemma run_deadline_is_effective_timeout w data d :
  In (EvWithTimeout d) (snd (run w data)) ->
  exists eff,
    effective_timeout (requested_timeout data) (Getenv_MaxTimeOut w)
    = Some eff
    /\ d = Duration_of_seconds eff.
Proof.
  intros Hd.
  destruct (run_cases w data) as
    [[_ Hr] | [(_ & _ & Hr) | [(_ & _ & k & _ & _ & Hr)
    | [(_ & _ & eff & tr0 & reason & _ & Hlog & _ & Hr)
    | (_ & _ & eff & tr0 & env' & _ & Hm & Hlog & _ & Hr)]]]];
    rewrite Hr in *; cbn [fst snd] in *;
    try contradiction.
  { apply Hlog in Hd. discriminate. }
  exists eff. split.
  { unfold effective_timeout. now rewrite Hm. }
  apply supervised_events in Hd as (p1 & e1 & n1 & Hc1 & Hd).
  destruct Hd as [Hd | [Hd | [Hd | Hd]]].
  - apply Hlog in Hd. discriminate.
  - simpl in Hd. intuition congruence.
  - apply start_and_wait_events in Hd
      as [(? & _ & _ & ?) | (? & ? & ? & _ & _ & _ & [? | ?])];
      discriminate.
  - apply final_select_events in Hd
      as [? | (_ & _ & ? & _ & [? | (? & _ & ?)])]; discriminate.
Qed.

(** ** C5 *)

Lemma length_eqb_nonempty (t : string) :
  t <> ""%string -> (String.length t =? 0)%nat = false.
Proof. destruct t; [congruence | reflexivity]. Qed.

(** C5. For every invocation with an empty command string, and for every
    invocation whose [MAX_TIMEOUT] is set but is no well-formed integer
    ([Atoi] rejects it), the call ends before any pipe is allocated or any
    process is spawned, with no effect at all (the trace is empty), and not
    in success; what it returns is a configuration error, the environment
    mapping holding strings as the input contract has it (or the command
    being empty, which is checked first). *)
Theorem configuration_errors_come_before_spawn
    (w : World) (data : ResourceData) :
  command data = ""%string
  \/ (Getenv_MaxTimeOut w <> ""%string
      /\ exists k, strconv.Atoi (Getenv_MaxTimeOut w) = inr k) ->
  snd (run w data) = []
  /\ fst (run w data) <> Ok
  /\ (command data = ""%string \/ env_strings data = true ->
      exists e, is_configuration_error (Getenv_MaxTimeOut w) e
                /\ run w data = (Failed e, [])).
Proof.
  intros H.
  destruct (String.eqb (command data) "") eqn:Ec.
  { apply String.eqb_eq in Ec. rewrite (run_empty_command w data Ec).
    split; [reflexivity|]. split; [discriminate|]. intros _.
    eexists. split; [left|]; reflexivity. }
  apply String.eqb_neq in Ec.
  destruct H as [Hc | (Ht & [k Hk])]; [contradiction|].
  destruct (env_strings data) eqn:He.
  - rewrite (run_bad_ceiling w data k Ec He (length_eqb_nonempty _ Ht) Hk).
    split; [reflexivity|]. split; [discriminate|]. intros _.
    eexists. split; [right; now exists k | reflexivity].
  - rewrite (run_bad_environment w data Ec He).
    split; [reflexivity|]. split; [discriminate|].
    intros [Hc | Hs]; [contradiction | discriminate].
Qed.

Lemma configuration_errors_come_before_spawn_witness :
  (exists e, is_configuration_error "" e
             /\ run quiet_linux (mkData "" [] [] "" None) = (Failed e, []))
  /\ (exists e, is_configuration_error "ten" e
                /\ run (with_max_timeout quiet_linux "ten") (echo_hi None)
                   = (Failed e, [])).
Proof.
  split.
  - destruct (configuration_errors_come_before_spawn quiet_linux
                (mkData "" [] [] "" None)) as (_ & _ & H).
    + left. reflexivity.
    + apply H. left. reflexivity.
  - destruct (configuration_errors_come_before_spawn
                (with_max_timeout quiet_linux "ten") (echo_hi None))
      as (_ & _ & H).
    + right. split; [discriminate|].
      exists strconv.ErrSyntax. reflexivity.
    + apply H. right. reflexivity.
Defined.

(** ** C10 *)

(** C10, as stated, fails for an empty command: the environment of
    [odd_environment ""] holds a value that is no string, and the call
    returns the error of the empty command instead of panicking. *)
Lemma odd_environment_empty_command_returns_error :
  (exists k v, In (k, v) (environment (odd_environment ""))
               /\ is_string v = false)
  /\ run quiet_linux (odd_environment "")
     = (Failed (Errorf
          "local-exec provisioner command must be a non-empty string"), [])
  /\ ~ (exists why, fst (run quiet_linux (odd_environment ""))
                    = Panicked why).
Proof.
  split; [|split].
  - exists "RETRIES"%string, (VInt 3). split; [left|]; reflexivity.
  - reflexivity.
  - intros [why H]. discriminate H.
Qed.

Lemma env_strings_false_iff data :
  env_strings data = false
  <-> exists k v, In (k, v) (environment data) /\ is_string v = false.
Proof.
  unfold env_strings. split.
  - intros H.
    assert (Hn : ~ forallb (fun kv => is_string (snd kv)) (environment data)
                   = true) by congruence.
    rewrite forallb_forall in Hn.
    induction (environment data) as [|[k v] rest IH].
    + exfalso. apply Hn. intros x [].
    + destruct (is_string v) eqn:Ev.
      * simpl in H. rewrite Ev in H. cbn [andb] in H.
        destruct IH as (k' & v' & Hin & Hv); [exact H | |].
        { intros Hall.
          assert (forallb (fun kv => is_string (snd kv)) rest = true)
            by (apply forallb_forall; exact Hall).
          congruence. }
        exists k', v'. split; [now right | exact Hv].
      * exists k, v. split; [now left | exact Ev].
  - intros (k & v & Hin & Hv).
    destruct (forallb _ _) eqn:E; [|reflexivity].
    rewrite forallb_forall in E. specialize (E _ Hin). cbn in E. congruence.
Qed.

(** C10, amended. For every invocation with a non-empty command whose
    environment mapping contains a value that is no string, [applyFn]
    panics in the unchecked type assertion of the environment loop, before
    any effect; no error is returned. *)
Theorem non_string_environment_value_panics
    (w : World) (data : ResourceData) :
  command data <> ""%string ->
  (exists k v, In (k, v) (environment data) /\ is_string v = false) ->
  run w data
  = (Panicked "interface conversion: interface {} is not string", [])
  /\ forall e, fst (run w data) <> Failed e.
Proof.
  intros Hc Hv. apply env_strings_false_iff in Hv.
  rewrite (run_bad_environment w data Hc Hv). split; [reflexivity|].
  intros e H. discriminate H.
Qed.

Lemma non_string_environment_value_panics_witness :
  command (odd_environment "ls") <> ""%string
  /\ (exists k v, In (k, v) (environment (odd_environment "ls"))
                  /\ is_string v = false)
  /\ run quiet_linux (odd_environment "ls")
     = (Panicked "interface conversion: interface {} is not string", [])
  /\ forall e, fst (run quiet_linux (odd_environment "ls")) <> Failed e.
Proof.
  assert (H1 : command (odd_environment "ls") <> ""%string) by discriminate.
  assert (H2 : exists k v, In (k, v) (environment (odd_environment "ls"))
                           /\ is_string v = false).
  { exists "RETRIES"%string, (VInt 3). split; [left|]; reflexivity. }
  refine (conj H1 (conj H2 _)).
  exact (non_string_environment_value_panics quiet_linux
           (odd_environment "ls") H1 H2).
Defined.

(** *** The trace of the process call and of the [select] *)

Lemma final_select_trace w d process now :
  snd (final_select w d process now [])
  = EvSelect (select_branch w d now) (select_time w d now)
    :: select_tail w d process now.
Proof.
  unfold final_select, select_tail, kill_group, group_signal.
  destruct (select_branch w d now); unfold_monad; try reflexivity.
  destruct (String.eqb (GOOS w) "windows"); unfold_monad; try reflexivity.
  destruct process as [pid|]; unfold_monad; try reflexivity.
  now destruct (Getpgid w (select_time w d now) pid).
Qed.

Lemma start_and_wait_trace w d cmdargs dir env sp :
  snd (start_and_wait w d cmdargs dir env sp [])
  = match cmd_Start w d with
    | inl err => [EvStartFailed err]
    | inr pid => [EvSpawn pid cmdargs dir env sp;
                  EvWait pid (fst (cmd_Wait w d)) (snd (cmd_Wait w d))]
    end.
Proof.
  unfold start_and_wait.
  destruct (cmd_Start w d) as [err | pid]; unfold_monad; [reflexivity|].
  now destruct (cmd_Wait w d).
Qed.

Lemma append_assoc (a b c : string) :
  ((a ++ b) ++ c = a ++ b ++ c)%string.
Proof. induction a; simpl; congruence. Qed.

Lemma embeds_intro (pre part post : string) :
  embeds part (pre ++ part ++ post).
Proof. now exists pre, post. Qed.

Lemma failure_message_embeds w data e :
  embeds (command data) (failure_message w data e)
  /\ embeds (Error_text e) (failure_message w data e)
  /\ embeds (string_of_list_byte (output_Bytes w)) (failure_message w data e).
Proof.
  unfold failure_message. repeat split.
  - apply embeds_intro.
  - exists ("Error running command '" ++ command data ++ "': ")%string,
      (". Output: " ++ string_of_list_byte (output_Bytes w))%string.
    now rewrite !append_assoc.
  - exists ("Error running command '" ++ command data ++ "': "
            ++ Error_text e ++ ". Output: ")%string, ""%string.
    rewrite !append_assoc. repeat f_equal.
    generalize (string_of_list_byte (output_Bytes w)).
    intros s. induction s; simpl; congruence.
Qed.

(** ** C1 *)

(** C1. With a requested timeout of 0 and a ceiling of 0 (or none) the
    process does not run without a deadline: the command context is made
    with a duration of 0, so it is done when it is made; [cmd.Start] returns
    the context's error and spawns nothing, and the call fails with that
    error or panics in the timeout case of the [select], where
    [cmd.Process] is nil. *)
Theorem zero_timeout_never_starts_the_command
    (w : World) (data : ResourceData) :
  command data <> ""%string -> env_strings data = true ->
  requested_timeout data = 0 -> ceiling (Getenv_MaxTimeOut w) = inl 0 ->
  pipe_error w = None -> lookpath_error w = None ->
  (exists tr0 b ts,
     snd (run w data)
     = tr0 ++ [EvPipe; EvWithTimeout 0; EvGoCopyOutput;
               EvExecuting (cmdargs_of w data);
               EvStartFailed DeadlineExceeded; EvClosePw; EvSelect b ts]
     /\ (tr0 = [] \/ tr0 = [EvLog 0]))
  /\ existsb is_spawn (snd (run w data)) = false
  /\ (fst (run w data)
      = Failed (Errorf (failure_message w data DeadlineExceeded))
      \/ fst (run w data)
         = Panicked "invalid memory address or nil pointer dereference").
Proof.
  intros Hc He Hr Hceil Hp Hl.
  destruct (env_entries_strings _ [] [] He) as [env Henv].
  assert (Hm : exists tr0,
             apply_max_timeout (Getenv_MaxTimeOut w)
               (requested_timeout data) [] = (Next 0, tr0)
             /\ (tr0 = [] \/ tr0 = [EvLog 0])).
  { rewrite Hr. unfold ceiling in Hceil. unfold apply_max_timeout.
    destruct (String.length (Getenv_MaxTimeOut w) =? 0)%nat; cbn [negb].
    - exists []. split; [reflexivity | now left].
    - rewrite Hceil. exists [EvLog 0]. split; [reflexivity | now right]. }
  destruct Hm as (tr0 & Hm & Htr0).
  rewrite (run_supervised w data env 0 tr0 Hc Henv Hm Hp).
  assert (Hstart : cmd_Start w (Duration_of_seconds 0) = inl DeadlineExceeded).
  { unfold cmd_Start. now rewrite Hl. }
  assert (Hcall : process_call w (Duration_of_seconds 0)
                  = (None, Some DeadlineExceeded, 0)).
  { unfold process_call. now rewrite Hstart. }
  assert (Htrace : snd (supervised w data env 0 tr0)
    = tr0 ++ [EvPipe; EvWithTimeout 0; EvGoCopyOutput;
              EvExecuting (cmdargs_of w data);
              EvStartFailed DeadlineExceeded; EvClosePw;
              EvSelect (select_branch w 0 0) (select_time w 0 0)]).
  { unfold supervised. rewrite Hcall. cbn [snd].
    rewrite start_and_wait_trace, Hstart, final_select_trace.
    unfold select_tail. change (Duration_of_seconds 0) with 0.
    destruct (branch_eqb (select_branch w 0 0) TimeoutDone
              && negb (String.eqb (GOOS w) "windows")); reflexivity. }
  split; [|split].
  - exists tr0, (select_branch w 0 0), (select_time w 0 0).
    split; [exact Htrace | exact Htr0].
  - rewrite Htrace, existsb_app.
    destruct Htr0 as [-> | ->]; reflexivity.
  - rewrite (supervised_result _ _ _ _ _ _ _ _ Hcall).
    destruct (select_panics w (Duration_of_seconds 0) None 0);
      [now right | now left].
Qed.

Lemma zero_timeout_never_starts_the_command_witness :
  command (echo_hi None) <> ""%string
  /\ env_strings (echo_hi None) = true
  /\ requested_timeout (echo_hi None) = 0
  /\ ceiling (Getenv_MaxTimeOut quiet_linux) = inl 0
  /\ pipe_error quiet_linux = None
  /\ lookpath_error quiet_linux = None
  /\ (exists tr0 b ts,
        snd (run quiet_linux (echo_hi None))
        = tr0 ++ [EvPipe; EvWithTimeout 0; EvGoCopyOutput;
                  EvExecuting (cmdargs_of quiet_linux (echo_hi None));
                  EvStartFailed DeadlineExceeded; EvClosePw; EvSelect b ts]
        /\ (tr0 = [] \/ tr0 = [EvLog 0]))
  /\ existsb is_spawn (snd (run quiet_linux (echo_hi None))) = false
  /\ (fst (run quiet_linux (echo_hi None))
      = Failed (Errorf
          (failure_message quiet_linux (echo_hi None) DeadlineExceeded))
      \/ fst (run quiet_linux (echo_hi None))
         = Panicked "invalid memory address or nil pointer dereference").
Proof.
  assert (H1 : command (echo_hi None) <> ""%string) by discriminate.
  refine (conj H1 (conj eq_refl (conj eq_refl (conj eq_refl
           (conj eq_refl (conj eq_refl _)))))).
  exact (zero_timeout_never_starts_the_command quiet_linux (echo_hi None)
           H1 eq_refl eq_refl eq_refl eq_refl eq_refl).
Defined.

(** The same call on the sample host: the [select] is entered at time 0,
    only the command context is done, and the nil [cmd.Process] is
    dereferenced. *)
Example zero_timeout_on_quiet_linux :
  run quiet_linux (echo_hi None)
  = (Panicked "invalid memory address or nil pointer dereference",
     [EvPipe; EvWithTimeout 0; EvGoCopyOutput;
      EvExecuting ["/bin/sh"; "-c"; "echo hi"]%string;
      EvStartFailed DeadlineExceeded; EvClosePw; EvSelect TimeoutDone 0]).
Proof. vm_compute. reflexivity. Qed.

(** When the drain is over at once and the scheduler takes that case, the
    call returns the error of the expired context. *)
Example zero_timeout_drain_first :
  let w := {|
    GOOS := "linux"; Getenv_MaxTimeOut := ""; Environ := [];
    pipe_error := None; lookpath_error := None; spawn_error := None;
    child_pid := 4242; exit_after := Some (5 * Second);
    exit_state := Exited 0; drained := [];
    drain_done_after := Some 0; caller_done_after := None;
    select_order := [CopyDone]; Getpgid := fun _ _ => None |} in
  fst (run w (echo_hi None))
  = Failed (Errorf
      "Error running command 'echo hi': context deadline exceeded. Output: ").
Proof. vm_compute. reflexivity. Qed.

(** *** The shape of a trace *)

Lemma start_and_wait_call_trace w d cmdargs dir env sp :
  snd (start_and_wait w d cmdargs dir env sp [])
  = call_trace cmdargs dir env sp (process_call w d).
Proof.
  rewrite start_and_wait_trace. unfold process_call, call_trace.
  destruct (cmd_Start w d) as [err | pid]; [reflexivity|].
  now destruct (cmd_Wait w d).
Qed.

Lemma supervised_trace_eq w data env eff tr0 :
  snd (supervised w data env eff tr0) = supervised_trace w data env eff tr0.
Proof.
  unfold supervised, supervised_trace.
  rewrite start_and_wait_call_trace.
  destruct (process_call w (Duration_of_seconds eff)) as [[process err] now].
  cbn [snd]. rewrite final_select_trace. reflexivity.
Qed.

(** A call stops early, with no effect but the log line of the ceiling and
    without success, or it is supervised. *)
Lemma run_shape w data :
  (fst (run w data) <> Ok
   /\ forall ev, In ev (snd (run w data)) -> exists eff, ev = EvLog eff)
  \/ exists env eff tr0 process err now,
       (forall ev, In ev tr0 -> ev = EvLog eff)
       /\ effective_timeout (requested_timeout data) (Getenv_MaxTimeOut w)
          = Some eff
       /\ process_call w (Duration_of_seconds eff) = (process, err, now)
       /\ fst (run w data)
          = (if select_panics w (Duration_of_seconds eff) process now
             then Panicked "invalid memory address or nil pointer dereference"
             else match err with
                  | Some e => Failed (Errorf (failure_message w data e))
                  | None => Ok
                  end)
       /\ snd (run w data) = supervised_trace w data env eff tr0.
Proof.
  destruct (run_cases w data) as
    [[_ Hr] | [(_ & _ & Hr) | [(_ & _ & k & _ & _ & Hr)
    | [(_ & _ & eff & tr0 & reason & _ & Hlog & _ & Hr)
    | (_ & _ & eff & tr0 & env & _ & Hm & Hlog & _ & Hr)]]]];
    rewrite Hr; cbn [fst snd];
    try (left; split; [discriminate | intros ev []]).
  { left. split; [discriminate|]. intros ev H. exists eff. now apply Hlog. }
  right.
  destruct (process_call w (Duration_of_seconds eff))
    as [[process err] now] eqn:Hcall.
  exists env, eff, tr0, process, err, now.
  split; [exact Hlog|]. split.
  { unfold effective_timeout. now rewrite Hm. }
  split; [exact Hcall|]. split.
  - now rewrite (supervised_result _ _ _ _ _ _ _ _ Hcall).
  - apply supervised_trace_eq.
Qed.

(** The events of a supervised trace, by origin. *)
Lemma supervised_trace_in w data env eff tr0 process err now ev :
  process_call w (Duration_of_seconds eff) = (process, err, now) ->
  In ev (supervised_trace w data env eff tr0) ->
  let d := Duration_of_seconds eff in
  In ev tr0
  \/ In ev [EvPipe; EvWithTimeout d; EvGoCopyOutput;
            EvExecuting (cmdargs_of w data); EvClosePw;
            EvSelect (select_branch w d now) (select_time w d now)]
  \/ In ev (call_trace (cmdargs_of w data) (working_dir data)
              (Environ w ++ env) (negb (String.eqb (GOOS w) "windows"))
              (process, err, now))
  \/ In ev (select_tail w d process now).
Proof.
  intros Hcall H d. subst d. unfold supervised_trace in H.
  rewrite Hcall in H.
  repeat (apply in_app_or in H as [H | H]); auto.
  - right. left. simpl in *. tauto.
  - right. left. simpl in *. tauto.
Qed.

Lemma select_tail_in w d process now ev :
  In ev (select_tail w d process now) ->
  select_branch w d now = TimeoutDone
  /\ String.eqb (GOOS w) "windows" = false
  /\ exists pid, process = Some pid
     /\ (ev = EvGetpgid pid (Getpgid w (select_time w d now) pid)
         \/ exists pgid, Getpgid w (select_time w d now) pid = Some pgid
                         /\ ev = EvKill (wrap64 (- pgid)) 15).
Proof.
  unfold select_tail, group_signal.
  destruct (select_branch w d now); cbn [branch_eqb andb];
    try (now intros []).
  destruct (String.eqb (GOOS w) "windows"); cbn [negb]; try (now intros []).
  destruct process as [pid|]; try (now intros []).
  destruct (Getpgid w (select_time w d now) pid) as [pgid|] eqn:Eg.
  - intros [<- | [<- | []]]; repeat split; exists pid;
      (split; [reflexivity|]); rewrite Eg; [now left | right; now exists pgid].
  - intros [<- | []]. repeat split. exists pid.
    split; [reflexivity|]. rewrite Eg. now left.
Qed.

Lemma branch_eqb_eq a b : branch_eqb a b = true -> a = b.
Proof. destruct a, b; simpl; congruence. Qed.

Lemma supervised_trace_has_select w data env eff tr0 process err now :
  process_call w (Duration_of_seconds eff) = (process, err, now) ->
  In (EvSelect (select_branch w (Duration_of_seconds eff) now)
        (select_time w (Duration_of_seconds eff) now))
     (supervised_trace w data env eff tr0).
Proof.
  intros Hcall. unfold supervised_trace. rewrite Hcall.
  apply in_or_app. right. apply in_or_app. right.
  apply in_or_app. right. apply in_or_app. left. simpl. tauto.
Qed.

Lemma select_panics_timeout w d process now :
  select_panics w d process now = true ->
  select_branch w d now = TimeoutDone.
Proof.
  unfold select_panics. intros H.
  apply andb_true_iff in H as [H _]. apply andb_true_iff in H as [H _].
  now apply branch_eqb_eq.
Qed.

(** ** The message of a returned failure *)

(** For every invocation that fails with a start error or a run error
    [e], the error the call returns has the message of line 195, which
    embeds the command text, the text of [e] and the bytes the output
    buffer holds, and these are the last 8 KiB of what was drained from the
    pipe.  After a run error the call does return that error, and so it
    does after a start error unless the [select] takes its timeout case. *)
Lemma failure_message_embeds_command_reason_and_output
    (w : World) (data : ResourceData) (e : cmderr) :
  In (EvStartFailed e) (snd (run w data))
  \/ (exists pid now, In (EvWait pid (Some e) now) (snd (run w data))) ->
  (forall err, fst (run w data) = Failed err
               -> err = Errorf (failure_message w data e))
  /\ ((exists pid now, In (EvWait pid (Some e) now) (snd (run w data)))
      -> fst (run w data) = Failed (Errorf (failure_message w data e)))
  /\ ((forall ts, ~ In (EvSelect TimeoutDone ts) (snd (run w data)))
      -> fst (run w data) = Failed (Errorf (failure_message w data e)))
  /\ embeds (command data) (failure_message w data e)
  /\ embeds (Error_text e) (failure_message w data e)
  /\ embeds (string_of_list_byte (output_Bytes w)) (failure_message w data e)
  /\ (Z.of_nat (length (concat (drained w))) < 2 ^ 63 ->
      output_Bytes w = lastn (Z.to_nat maxBufSize) (concat (drained w))).
Proof.
  intros H.
  assert (Hcall : exists eff process now,
    process_call w (Duration_of_seconds eff) = (process, Some e, now)
    /\ fst (run w data)
       = (if select_panics w (Duration_of_seconds eff) process now
          then Panicked "invalid memory address or nil pointer dereference"
          else Failed (Errorf (failure_message w data e)))
    /\ ((exists pid now', In (EvWait pid (Some e) now') (snd (run w data)))
        -> exists pid, process = Some pid)
    /\ (select_panics w (Duration_of_seconds eff) process now = true
        -> exists ts, In (EvSelect TimeoutDone ts) (snd (run w data)))).
  { destruct (run_shape w data) as
      [[_ Hlog] | (env & eff & tr0 & process & err & now
                   & Hlog & _ & Hcall & Hres & Htr)].
    { destruct H as [H | (? & ? & H)]; apply Hlog in H as [? H];
        discriminate H. }
    assert (Hin : forall ev, In ev (snd (run w data)) ->
      (ev = EvStartFailed e -> err = Some e)
      /\ (forall pid n, ev = EvWait pid (Some e) n ->
          err = Some e /\ process = Some pid)).
    { intros ev Hev. rewrite Htr in Hev.
      apply (supervised_trace_in _ _ _ _ _ _ _ _ _ Hcall) in Hev.
      destruct Hev as [Hev | [Hev | [Hev | Hev]]].
      - apply Hlog in Hev. subst ev.
        split; [discriminate | intros; discriminate].
      - simpl in Hev.
        split; [intros -> | intros ? ? ->]; intuition discriminate.
      - unfold call_trace in Hev.
        destruct process as [pid|]; [|destruct err as [e'|]];
          simpl in Hev.
        + destruct Hev as [<- | [<- | []]].
          * split; [discriminate | intros; discriminate].
          * split; [discriminate|]. intros pid' n [= -> -> _]. auto.
        + destruct Hev as [<- | []].
          split; [now intros [= ->] | intros; discriminate].
        + contradiction.
      - apply select_tail_in in Hev
          as (_ & _ & ? & _ & [-> | (? & _ & ->)]);
          (split; [discriminate | intros; discriminate]). }
    assert (Herr : err = Some e).
    { destruct H as [H | (pid & n & H)]; apply Hin in H as [H1 H2].
      - now apply H1.
      - now apply (H2 pid n). }
    subst err. exists eff, process, now.
    split; [exact Hcall|]. split; [exact Hres|]. split.
    - intros (pid & n & Hw). apply Hin in Hw as [_ Hw].
      destruct (Hw pid n eq_refl) as [_ ->]. now exists pid.
    - intros Hp. apply select_panics_timeout in Hp.
      exists (select_time w (Duration_of_seconds eff) now).
      rewrite Htr, <- Hp.
      apply (supervised_trace_has_select _ _ _ _ _ _ _ _ Hcall). }
  destruct Hcall as (eff & process & now & Hcall & Hres & Hwait & Hpanic).
  split; [|split; [|split]].
  - intros err Herr. rewrite Hres in Herr.
    destruct (select_panics _ _ _ _); [discriminate|]. now injection Herr.
  - intros Hw. destruct (Hwait Hw) as [pid ->].
    now rewrite Hres, select_panics_started.
  - intros Hno. rewrite Hres.
    destruct (select_panics _ _ _ _); [|reflexivity].
    destruct (Hpanic eq_refl) as [ts Hts]. now apply Hno in Hts.
  - pose proof (failure_message_embeds w data e) as (H1 & H2 & H3).
    repeat split; try assumption. apply output_Bytes_tail.
Qed.

Example failure_message_embeds_command_reason_and_output_witness :
  (In (EvStartFailed (ExitError (Exited 3)))
      (snd (run failing_command (echo_hi (Some 10))))
   \/ (exists pid now,
         In (EvWait pid (Some (ExitError (Exited 3))) now)
            (snd (run failing_command (echo_hi (Some 10))))))
  /\ fst (run failing_command (echo_hi (Some 10)))
     = Failed (Errorf
         "Error running command 'echo hi': exit status 3. Output: hi").
Proof.
  assert (H : exists pid now,
             In (EvWait pid (Some (ExitError (Exited 3))) now)
                (snd (run failing_command (echo_hi (Some 10))))).
  { exists 4242, (2 * Second). vm_compute. tauto. }
  split; [right; exact H|].
  destruct (failure_message_embeds_command_reason_and_output
              failing_command (echo_hi (Some 10)) (ExitError (Exited 3))
              (or_intror H)) as (_ & Hret & _).
  rewrite (Hret H). reflexivity.
Defined.

(** ** C3 *)

Lemma existsb_false_iff {A : Type} (f : A -> bool) (l : list A) :
  existsb f l = false <-> forall x, In x l -> f x = false.
Proof.
  induction l as [|a l IH]; simpl.
  - split; [intros _ x [] | reflexivity].
  - rewrite orb_false_iff, IH. split.
    + intros [Ha Hl] x [<- | Hx]; auto.
    + intros H. split; [apply H; now left | intros x Hx; apply H; now right].
Qed.

Lemma call_trace_no_select cmdargs dir env sp call ev :
  In ev (call_trace cmdargs dir env sp call) -> is_select_event ev = false.
Proof.
  destruct call as [[[pid|] [e|]] now]; simpl; intuition (subst; reflexivity).
Qed.

Lemma select_tail_all_select w d process now ev :
  In ev (select_tail w d process now) -> is_select_event ev = true.
Proof.
  intros H. apply select_tail_in in H
    as (_ & _ & ? & _ & [-> | (? & _ & ->)]); reflexivity.
Qed.

Lemma filter_nil_iff {A : Type} (f : A -> bool) (l : list A) :
  (forall x, In x l -> f x = false) -> filter f l = [].
Proof.
  induction l as [|a l IH]; intros H; simpl; [reflexivity|].
  rewrite (H a) by now left. apply IH. intros x Hx. apply H. now right.
Qed.

Lemma filter_all {A : Type} (f : A -> bool) (l : list A) :
  (forall x, In x l -> f x = true) -> filter f l = l.
Proof.
  induction l as [|a l IH]; intros H; simpl; [reflexivity|].
  rewrite (H a) by now left. f_equal. apply IH. intros x Hx. apply H.
  now right.
Qed.

(** What a supervised call does before its [select]. *)
Lemma before_select_supervised w data env eff tr0 :
  (forall ev, In ev tr0 -> ev = EvLog eff) ->
  before_select (supervised_trace w data env eff tr0)
  = tr0
    ++ [EvPipe; EvWithTimeout (Duration_of_seconds eff); EvGoCopyOutput;
        EvExecuting (cmdargs_of w data)]
    ++ call_trace (cmdargs_of w data) (working_dir data) (Environ w ++ env)
         (negb (String.eqb (GOOS w) "windows"))
         (process_call w (Duration_of_seconds eff))
    ++ [EvClosePw].
Proof.
  intros Hlog. unfold before_select, supervised_trace.
  destruct (process_call w (Duration_of_seconds eff)) as [[process err] now].
  rewrite !filter_app.
  rewrite (filter_all _ tr0)
    by (intros ev Hev; now rewrite (Hlog ev Hev)).
  rewrite (filter_all _ (call_trace _ _ _ _ _))
    by (intros ev Hev; now rewrite (call_trace_no_select _ _ _ _ _ _ Hev)).
  rewrite (filter_nil_iff _ (select_tail _ _ _ _))
    by (intros ev Hev; now rewrite (select_tail_all_select _ _ _ _ _ Hev)).
  reflexivity.
Qed.

(** C3, as stated, fails: the caller cancels after one second, the command
    runs on for four more seconds and exits with status 0; no signal is
    sent to any process group and the outcome is Success. *)
Lemma caller_cancel_while_running_is_ignored :
  caller_done_after cancelled_while_running = Some (1 * Second)
  /\ In (EvWait 4242 None (5 * Second))
        (snd (run cancelled_while_running (echo_hi (Some 10))))
  /\ In (EvSelect CallerDone (5 * Second))
        (snd (run cancelled_while_running (echo_hi (Some 10))))
  /\ existsb is_kill (snd (run cancelled_while_running (echo_hi (Some 10))))
     = false
  /\ fst (run cancelled_while_running (echo_hi (Some 10))) = Ok.
Proof.
  vm_compute. repeat split; tauto.
Qed.

(** C3, amended. The command is bound to the timeout context only: when
    the caller's context is done changes nothing of what the call does
    before its final [select].  When the [select] takes the case of the
    caller's context, no group id is looked up and no signal is sent, and a
    command that ended without error makes the outcome Success.  A signal
    to the process group is sent in the case of the timeout context only. *)
Theorem caller_cancellation_only_ends_the_wait_for_the_drain
    (w : World) (data : ResourceData) :
  (forall c, before_select (snd (run (with_caller_done w c) data))
             = before_select (snd (run w data)))
  /\ (forall ts, In (EvSelect CallerDone ts) (snd (run w data)) ->
        existsb is_getpgid (snd (run w data)) = false
        /\ existsb is_kill (snd (run w data)) = false
        /\ (forall pid now, In (EvWait pid None now) (snd (run w data)) ->
            fst (run w data) = Ok))
  /\ (forall target sig, In (EvKill target sig) (snd (run w data)) ->
        sig = 15 /\ exists ts, In (EvSelect TimeoutDone ts) (snd (run w data))).
Proof.
  split; [|split].
  - intros c.
    destruct (run_cases w data) as
      [[Hc Hr] | [(Hc & He & Hr) | [(Hc & He & k & Hl & Ha & Hr)
      | [(Hc & He & eff & tr0 & reason & Hm & Hlog & Hp & Hr)
      | (Hc & He & eff & tr0 & env & Henv & Hm & Hlog & Hp & Hr)]]]];
      rewrite Hr.
    + now rewrite (run_empty_command (with_caller_done w c) data Hc).
    + now rewrite (run_bad_environment (with_caller_done w c) data Hc He).
    + now rewrite (run_bad_ceiling (with_caller_done w c) data k Hc He Hl Ha).
    + now rewrite (run_no_pipe (with_caller_done w c) data eff tr0 reason
                     Hc He Hm Hp).
    + rewrite (run_supervised (with_caller_done w c) data env eff tr0
                 Hc Henv Hm Hp).
      rewrite !supervised_trace_eq, !before_select_supervised by exact Hlog.
      reflexivity.
  - intros ts Hsel.
    destruct (run_shape w data) as
      [[_ Hlog] | (env & eff & tr0 & process & err & now
                   & Hlog & _ & Hcall & Hres & Htr)].
    { apply Hlog in Hsel as [? Hsel]. discriminate Hsel. }
    assert (Hb : select_branch w (Duration_of_seconds eff) now = CallerDone).
    { rewrite Htr in Hsel.
      apply (supervised_trace_in _ _ _ _ _ _ _ _ _ Hcall) in Hsel.
      destruct Hsel as [Hsel | [Hsel | [Hsel | Hsel]]].
      - apply Hlog in Hsel. discriminate.
      - simpl in Hsel. intuition congruence.
      - apply call_trace_no_select in Hsel. discriminate.
      - apply select_tail_in in Hsel
          as (_ & _ & ? & _ & [? | (? & _ & ?)]); discriminate. }
    assert (Hnone : forall ev, In ev (snd (run w data)) ->
              is_getpgid ev = false /\ is_kill ev = false
              /\ (forall pid n, ev = EvWait pid None n ->
                  err = None /\ exists p, process = Some p)).
    { intros ev Hev. rewrite Htr in Hev.
      apply (supervised_trace_in _ _ _ _ _ _ _ _ _ Hcall) in Hev.
      destruct Hev as [Hev | [Hev | [Hev | Hev]]].
      - apply Hlog in Hev. subst ev.
        split; [reflexivity | split; [reflexivity | intros; discriminate]].
      - simpl in Hev. decompose [or] Hev; subst; try contradiction;
          (split; [reflexivity | split; [reflexivity | intros; discriminate]]).
      - unfold call_trace in Hev.
        destruct process as [p|]; [|destruct err as [e'|]]; simpl in Hev.
        + destruct Hev as [<- | [<- | []]].
          * split; [reflexivity | split; [reflexivity | intros; discriminate]].
          * split; [reflexivity | split; [reflexivity|]].
            intros pid n [= _ <- _]. split; [reflexivity | now exists p].
        + destruct Hev as [<- | []].
          split; [reflexivity | split; [reflexivity | intros; discriminate]].
        + contradiction.
      - apply select_tail_in in Hev as (Hev & _). congruence. }
    split; [|split].
    + apply existsb_false_iff. intros ev Hev. now apply Hnone.
    + apply existsb_false_iff. intros ev Hev. now apply Hnone.
    + intros pid n Hw. apply Hnone in Hw as (_ & _ & Hw).
      destruct (Hw pid n eq_refl) as [-> [p ->]].
      now rewrite Hres, select_panics_started.
  - intros target sig Hk.
    destruct (run_shape w data) as
      [[_ Hlog] | (env & eff & tr0 & process & err & now
                   & Hlog & _ & Hcall & Hres & Htr)].
    { apply Hlog in Hk as [? Hk]. discriminate Hk. }
    rewrite Htr in Hk |- *.
    apply (supervised_trace_in _ _ _ _ _ _ _ _ _ Hcall) in Hk.
    destruct Hk as [Hk | [Hk | [Hk | Hk]]].
    + apply Hlog in Hk. discriminate.
    + simpl in Hk. intuition discriminate.
    + apply call_trace_no_select in Hk. discriminate.
    + apply select_tail_in in Hk
        as (Hb & _ & ? & _ & [? | (? & _ & Hk)]); [discriminate|].
      injection Hk as _ ->. split; [reflexivity|].
      exists (select_time w (Duration_of_seconds eff) now).
      rewrite <- Hb.
      apply (supervised_trace_has_select _ _ _ _ _ _ _ _ Hcall).
Qed.

Lemma caller_cancellation_only_ends_the_wait_for_the_drain_witness :
  In (EvSelect CallerDone (5 * Second))
     (snd (run cancelled_while_running (echo_hi (Some 10))))
  /\ existsb is_getpgid
       (snd (run cancelled_while_running (echo_hi (Some 10)))) = false
  /\ existsb is_kill
       (snd (run cancelled_while_running (echo_hi (Some 10)))) = false
  /\ (forall pid now,
        In (EvWait pid None now)
           (snd (run cancelled_while_running (echo_hi (Some 10)))) ->
        fst (run cancelled_while_running (echo_hi (Some 10))) = Ok).
Proof.
  assert (H : In (EvSelect CallerDone (5 * Second))
                (snd (run cancelled_while_running (echo_hi (Some 10)))))
    by (vm_compute; tauto).
  split; [exact H|].
  destruct (caller_cancellation_only_ends_the_wait_for_the_drain
              cancelled_while_running (echo_hi (Some 10))) as (_ & H2 & _).
  exact (H2 (5 * Second) H).
Defined.

(** ** The place of the group lookup *)

Lemma existsb_logs (f : event -> bool) (tr0 : list event) (eff : Z) :
  (forall ev, In ev tr0 -> ev = EvLog eff) -> f (EvLog eff) = false ->
  existsb f tr0 = false.
Proof.
  intros Hlog Hf. apply existsb_false_iff. intros ev Hev.
  now rewrite (Hlog ev Hev).
Qed.

Lemma select_time_after_now w d now : now <= select_time w d now.
Proof. unfold select_time. lia. Qed.

(** The place of the lookup.  The process-group id is looked up at most
    once, and not at the spawn: the lookup [Getpgid(cmd.Process.Pid)] is
    made in the timeout case of the final [select], after [cmd.Wait] has
    returned and the pipe's write end is closed, at the time [ts] of the
    [select]; a signal, if any, goes to the id that this lookup returns. *)
Lemma group_id_is_looked_up_in_the_timeout_case
    (w : World) (data : ResourceData) :
  (existsb is_getpgid (snd (run w data)) = false
   /\ existsb is_kill (snd (run w data)) = false)
  \/ exists pre pid err now ts,
       snd (run w data)
       = pre ++ [EvWait pid err now; EvClosePw; EvSelect TimeoutDone ts;
                 EvGetpgid pid (Getpgid w ts pid)]
             ++ group_signal (Getpgid w ts pid)
       /\ existsb is_getpgid pre = false
       /\ existsb is_kill pre = false
       /\ now <= ts.
Proof.
  destruct (run_shape w data) as
    [[_ Hlog] | (env & eff & tr0 & process & err & now
                 & Hlog & _ & Hcall & Hres & Htr)].
  { left. split; apply existsb_false_iff; intros ev Hev;
      apply Hlog in Hev as [? ->]; reflexivity. }
  rewrite Htr. unfold supervised_trace. rewrite Hcall.
  unfold select_tail.
  destruct (branch_eqb (select_branch w (Duration_of_seconds eff) now)
              TimeoutDone) eqn:Eb; cbn [andb].
  2:{ left. rewrite !existsb_app, !(existsb_logs _ tr0 eff) by auto.
      destruct process as [p|]; [|destruct err as [e|]]; split; reflexivity. }
  destruct (String.eqb (GOOS w) "windows"); cbn [negb].
  { left. rewrite !existsb_app, !(existsb_logs _ tr0 eff) by auto.
    destruct process as [p|]; [|destruct err as [e|]]; split; reflexivity. }
  destruct process as [pid|].
  2:{ left. rewrite !existsb_app, !(existsb_logs _ tr0 eff) by auto.
      destruct err as [e|]; split; reflexivity. }
  right. apply branch_eqb_eq in Eb. rewrite Eb.
  exists (tr0 ++ [EvPipe; EvWithTimeout (Duration_of_seconds eff);
                  EvGoCopyOutput; EvExecuting (cmdargs_of w data);
                  EvSpawn pid (cmdargs_of w data) (working_dir data)
                    (Environ w ++ env) true]),
    pid, err, now, (select_time w (Duration_of_seconds eff) now).
  split; [|split; [|split]].
  - cbn [call_trace]. rewrite <- !app_assoc. reflexivity.
  - rewrite existsb_app, (existsb_logs _ tr0 eff) by auto. reflexivity.
  - rewrite existsb_app, (existsb_logs _ tr0 eff) by auto. reflexivity.
  - apply select_time_after_now.
Qed.

(** ** The drain goroutine *)

(** [copyOutput] hands the lines of the channel to the sink as they are,
    each once, in order, after what the sink already has. *)
Lemma copyOutput_forwards (ch o : list string) : copyOutput o ch = o ++ ch.
Proof.
  revert o. induction ch as [|line rest IH]; intros o; simpl.
  - now rewrite app_nil_r.
  - now rewrite IH, <- app_assoc.
Qed.

(** * Part III: further properties of the provisioner *)

(** ** Outline of a call *)

Lemma apply_max_timeout_log t r eff tr0 :
  apply_max_timeout t r [] = (Next eff, tr0) -> tr0 = log_trace t eff.
Proof.
  unfold apply_max_timeout, log_trace.
  destruct (String.length t =? 0)%nat; cbn [negb].
  - unfold ret. now intros [= _ <-].
  - destruct (strconv.Atoi t) as [m | k]; unfold_monad;
      [|discriminate]. now intros [= <- <-].
Qed.

(** A call ends before its first effect without success, or fails on the
    pipe after at most the log line, or is supervised; the trace of a
    supervised call is spelled out. *)
Lemma run_outline w data :
  let t := Getenv_MaxTimeOut w in
  (snd (run w data) = [] /\ fst (run w data) <> Ok)
  \/ (exists eff reason,
        command data <> ""%string /\ env_strings data = true
        /\ effective_timeout (requested_timeout data) t = Some eff
        /\ pipe_error w = Some reason
        /\ run w data
           = (Failed (Errorf
                ("failed to initialize pipe for output: " ++ reason)),
              log_trace t eff))
  \/ (exists env0 eff process err now,
        command data <> ""%string /\ env_strings data = true
        /\ env_entries (environment data) [] [] = (Next env0, [])
        /\ effective_timeout (requested_timeout data) t = Some eff
        /\ pipe_error w = None
        /\ process_call w (Duration_of_seconds eff) = (process, err, now)
        /\ fst (run w data)
           = (if select_panics w (Duration_of_seconds eff) process now
              then Panicked
                     "invalid memory address or nil pointer dereference"
              else match err with
                   | Some e => Failed (Errorf (failure_message w data e))
                   | None => Ok
                   end)
        /\ snd (run w data)
           = log_trace t eff
             ++ [EvPipe; EvWithTimeout (Duration_of_seconds eff);
                 EvGoCopyOutput; EvExecuting (cmdargs_of w data)]
             ++ call_trace (cmdargs_of w data) (working_dir data)
                  (Environ w ++ env0)
                  (negb (String.eqb (GOOS w) "windows")) (process, err, now)
             ++ [EvClosePw;
                 EvSelect (select_branch w (Duration_of_seconds eff) now)
                   (select_time w (Duration_of_seconds eff) now)]
             ++ select_tail w (Duration_of_seconds eff) process now).
Proof.
  intros t. subst t.
  destruct (run_cases w data) as
    [[Hc Hr] | [(Hc & He & Hr) | [(Hc & He & k & Hl & Ha & Hr)
    | [(Hc & He & eff & tr0 & reason & Hm & Hlog & Hp & Hr)
    | (Hc & He & eff & tr0 & env0 & Henv & Hm & Hlog & Hp & Hr)]]]].
  - left. rewrite Hr. split; [reflexivity | discriminate].
  - left. rewrite Hr. split; [reflexivity | discriminate].
  - left. rewrite Hr. split; [reflexivity | discriminate].
  - right. left. exists eff, reason.
    pose proof (apply_max_timeout_log _ _ _ _ Hm) as ->.
    repeat split; try assumption.
    unfold effective_timeout. now rewrite Hm.
  - right. right.
    pose proof (apply_max_timeout_log _ _ _ _ Hm) as ->.
    destruct (process_call w (Duration_of_seconds eff))
      as [[process err] now] eqn:Hcall.
    exists env0, eff, process, err, now.
    repeat split; try assumption.
    + unfold effective_timeout. now rewrite Hm.
    + rewrite Hr. now rewrite (supervised_result _ _ _ _ _ _ _ _ Hcall).
    + rewrite Hr, supervised_trace_eq. unfold supervised_trace.
      now rewrite Hcall.
Qed.

Lemma process_call_started w d pid err now :
  process_call w d = (Some pid, err, now) ->
  cmd_Start w d = inr pid /\ cmd_Wait w d = (err, now).
Proof.
  unfold process_call. destruct (cmd_Start w d) as [e | p]; [discriminate|].
  destruct (cmd_Wait w d) as [e n]. now intros [= -> -> ->].
Qed.

Lemma log_trace_in t eff ev : In ev (log_trace t eff) -> ev = EvLog eff.
Proof.
  unfold log_trace. destruct (String.length t =? 0)%nat; simpl; [tauto|].
  now intros [<- | []].
Qed.

(** What a call that spawns a process has done, and what it returns. *)
Lemma spawn_outline w data pid argv dir env sp :
  In (EvSpawn pid argv dir env sp) (snd (run w data)) ->
  exists env0 eff err now,
    env_entries (environment data) [] [] = (Next env0, [])
    /\ effective_timeout (requested_timeout data) (Getenv_MaxTimeOut w)
       = Some eff
    /\ cmd_Start w (Duration_of_seconds eff) = inr pid
    /\ cmd_Wait w (Duration_of_seconds eff) = (err, now)
    /\ argv = cmdargs_of w data /\ dir = working_dir data
    /\ env = Environ w ++ env0
    /\ sp = negb (String.eqb (GOOS w) "windows")
    /\ fst (run w data)
       = match err with
         | Some e => Failed (Errorf (failure_message w data e))
         | None => Ok
         end
    /\ snd (run w data)
       = log_trace (Getenv_MaxTimeOut w) eff
         ++ [EvPipe; EvWithTimeout (Duration_of_seconds eff); EvGoCopyOutput;
             EvExecuting argv; EvSpawn pid argv dir env sp;
             EvWait pid err now; EvClosePw;
             EvSelect (select_branch w (Duration_of_seconds eff) now)
               (select_time w (Duration_of_seconds eff) now)]
         ++ select_tail w (Duration_of_seconds eff) (Some pid) now.
Proof.
  intros H.
  destruct (run_outline w data) as
    [[Hnil _] | [(eff & reason & _ & _ & _ & _ & Hr)
    | (env0 & eff & process & err & now & _ & _ & Henv & Heff & _ & Hcall
       & Hres & Htr)]].
  - rewrite Hnil in H. contradiction.
  - rewrite Hr in H. apply log_trace_in in H. discriminate.
  - assert (Hp : process = Some pid /\ argv = cmdargs_of w data
                 /\ dir = working_dir data /\ env = Environ w ++ env0
                 /\ sp = negb (String.eqb (GOOS w) "windows")).
    { rewrite Htr in H.
      repeat (apply in_app_or in H as [H | H]).
      - apply log_trace_in in H. discriminate.
      - simpl in H. intuition discriminate.
      - unfold call_trace in H.
        destruct process as [p|]; [|destruct err as [e|]]; simpl in H.
        + destruct H as [H | [H | []]]; [|discriminate].
          injection H as -> -> -> -> ->. auto.
        + destruct H as [H | []]. discriminate.
        + contradiction.
      - simpl in H. intuition discriminate.
      - apply select_tail_in in H
          as (_ & _ & ? & _ & [? | (? & _ & ?)]); discriminate. }
    destruct Hp as (-> & -> & -> & -> & ->).
    apply process_call_started in Hcall as Hsw. destruct Hsw as [Hs Hw].
    exists env0, eff, err, now.
    repeat split; try assumption.
    now rewrite Hres, select_panics_started.
Qed.

(** ** The command line *)

Lemma interpreter_args_strings (l : list value) :
  map VString (interpreter_args l) = filter is_string l.
Proof.
  induction l as [|v l IH]; [reflexivity|].
  destruct v; simpl; now rewrite ?IH.
Qed.

(** X1. The argument vector of the spawned process ends with the command
    text.  Before it come the default shell when no interpreter is given,
    and else the elements of the interpreter list that are strings, in
    order, the others being skipped; an interpreter list without any string
    leaves the command text as the program to run. *)
Theorem spawned_argv_is_interpreter_then_command
    (w : World) (data : ResourceData) (pid : Z) (argv : list string)
    (dir : string) (env : list string) (sp : bool) :
  In (EvSpawn pid argv dir env sp) (snd (run w data)) ->
  exists prefix,
    argv = prefix ++ [command data]
    /\ (interpreter data = [] -> prefix = default_shell w)
    /\ (interpreter data <> [] ->
        map VString prefix = filter is_string (interpreter data))
    /\ (interpreter data <> [] ->
        forallb (fun v => negb (is_string v)) (interpreter data) = true ->
        argv = [command data]).
Proof.
  intros H.
  apply spawn_outline in H
    as (_ & _ & _ & _ & _ & _ & _ & _ & -> & _).
  unfold cmdargs_of.
  destruct (interpreter data) as [|v l] eqn:Ei.
  - exists (default_shell w). split; [reflexivity|].
    split; [reflexivity|]. split; intros Hne; now contradiction Hne.
  - cbn [length Nat.ltb Nat.leb].
    exists (interpreter_args (v :: l)). split; [reflexivity|].
    split; [discriminate|]. split.
    + intros _. apply interpreter_args_strings.
    + intros _ Hall.
      assert (Hf : filter is_string (v :: l) = []).
      { apply filter_nil_iff. intros x Hx.
        rewrite forallb_forall in Hall. specialize (Hall x Hx).
        now destruct (is_string x). }
      rewrite <- interpreter_args_strings in Hf.
      apply map_eq_nil in Hf. now rewrite Hf.
Qed.

Lemma spawned_argv_is_interpreter_then_command_witness :
  In (EvSpawn 4242 ["/bin/sh"; "-c"; "echo hi"]%string ""
        ["PATH=/bin"; "GREETING=hi"]%string true)
     (snd (run quiet_linux (echo_hi (Some 10))))
  /\ exists prefix,
       ["/bin/sh"; "-c"; "echo hi"]%string
       = prefix ++ [command (echo_hi (Some 10))]
       /\ (interpreter (echo_hi (Some 10)) = [] ->
           prefix = default_shell quiet_linux)
       /\ (interpreter (echo_hi (Some 10)) <> [] ->
           map VString prefix
           = filter is_string (interpreter (echo_hi (Some 10))))
       /\ (interpreter (echo_hi (Some 10)) <> [] ->
           forallb (fun v => negb (is_string v))
             (interpreter (echo_hi (Some 10))) = true ->
           ["/bin/sh"; "-c"; "echo hi"]%string
           = [command (echo_hi (Some 10))]).
Proof.
  assert (H : In (EvSpawn 4242 ["/bin/sh"; "-c"; "echo hi"]%string ""
                    ["PATH=/bin"; "GREETING=hi"]%string true)
                (snd (run quiet_linux (echo_hi (Some 10)))))
    by (vm_compute; tauto).
  split; [exact H|].
  exact (spawned_argv_is_interpreter_then_command quiet_linux
           (echo_hi (Some 10)) _ _ _ _ _ H).
Defined.

(** ** The environment of the command *)

Lemma env_entries_typed (e : list (string * string)) : forall env tr,
  env_entries (typed_environment e) env tr
  = (Next (env ++ map env_entry e), tr).
Proof.
  induction e as [|[k v] e IH]; intros env tr; simpl.
  - unfold ret. now rewrite app_nil_r.
  - rewrite IH, <- app_assoc. reflexivity.
Qed.

Lemma cut_at_equals_entry (k v : string) :
  no_equals k = true -> cut_at_equals (k ++ "=" ++ v) = Some (k, v).
Proof.
  induction k as [|c k IH]; simpl in *; intros H; [reflexivity|].
  apply andb_true_iff in H as [Hc Hk].
  apply negb_true_iff in Hc. now rewrite Hc, (IH Hk).
Qed.

Lemma plain_key_no_equals (k : string) :
  plain_key k = true -> no_equals k = true.
Proof. unfold plain_key. intros H. now apply andb_true_iff in H. Qed.

(** The entries of other keys leave what was found. *)
Lemma lookup_skips_other_keys (k : string) (e : list (string * string)) :
  forallb (fun kv => plain_key (fst kv)) e = true ->
  ~ In k (map fst e) ->
  forall found,
    fold_left (env_lookup_step k) (map env_entry e) found = found.
Proof.
  induction e as [|[k' v'] e IH]; intros Hp Hk found; [reflexivity|].
  cbn [forallb fst] in Hp. apply andb_true_iff in Hp as [Hp' Hp].
  cbn [map fold_left]. unfold env_lookup_step at 2, env_entry.
  cbn [fst snd].
  rewrite (cut_at_equals_entry _ _ (plain_key_no_equals _ Hp')).
  destruct (String.eqb_spec k' k) as [-> | Hne].
  - exfalso. apply Hk. now left.
  - apply (IH Hp). intros Hin. apply Hk. now right.
Qed.

(** The value of a configured key is what its one entry holds. *)
Lemma lookup_finds_configured_value (k v : string)
    (e : list (string * string)) :
  forallb (fun kv => plain_key (fst kv)) e = true ->
  NoDup (map fst e) -> In (k, v) e ->
  forall found,
    fold_left (env_lookup_step k) (map env_entry e) found = Some v.
Proof.
  induction e as [|[k' v'] e IH]; intros Hp Hnd Hin found; [contradiction|].
  cbn [forallb fst] in Hp. apply andb_true_iff in Hp as [Hp' Hp].
  cbn [map fst] in Hnd. apply NoDup_cons_iff in Hnd as [Hnotin Hnd].
  cbn [map fold_left]. unfold env_lookup_step at 2, env_entry.
  cbn [fst snd].
  rewrite (cut_at_equals_entry _ _ (plain_key_no_equals _ Hp')).
  destruct Hin as [Heq | Hin].
  - injection Heq as -> ->. rewrite String.eqb_refl.
    now apply lookup_skips_other_keys.
  - now apply IH.
Qed.

(** X2. When the values of the environment mapping are strings, [cmd.Env]
    is the inherited environment followed by one [key=value] entry for each
    pair of the mapping, in the order the loop visits them.  os/exec starts
    the process with the last entry of each key, so on a host that compares
    keys exactly and for keys that are not empty and hold no [=] (the keys
    of a Go map are distinct): the process finds under every configured key
    the configured value, also when the host sets that key too, and under
    every other key what the inherited environment holds. *)
Theorem configured_values_override_the_inherited_environment
    (w : World) (data : ResourceData) (e : list (string * string))
    (pid : Z) (argv : list string) (dir : string) (env : list string)
    (sp : bool) :
  String.eqb (GOOS w) "windows" = false ->
  environment data = typed_environment e ->
  NoDup (map fst e) ->
  forallb (fun kv => plain_key (fst kv)) e = true ->
  In (EvSpawn pid argv dir env sp) (snd (run w data)) ->
  env = Environ w ++ map env_entry e
  /\ (forall k v, In (k, v) e -> process_Getenv env k = Some v)
  /\ (forall k, ~ In k (map fst e) ->
      process_Getenv env k = process_Getenv (Environ w) k).
Proof.
  intros _ He Hnd Hp H.
  apply spawn_outline in H
    as (env0 & _ & _ & _ & Henv & _ & _ & _ & _ & _ & -> & _).
  rewrite He, env_entries_typed in Henv. injection Henv as <-.
  cbn [app]. split; [reflexivity|]. unfold process_Getenv.
  split; [intros k v Hin | intros k Hk]; rewrite fold_left_app.
  - now apply lookup_finds_configured_value.
  - now apply lookup_skips_other_keys.
Qed.

Lemma configured_values_override_the_inherited_environment_witness :
  String.eqb (GOOS quiet_linux) "windows" = false
  /\ environment with_own_path
     = typed_environment [("PATH", "/opt/bin"); ("GREETING", "hi")]%string
  /\ NoDup (map fst [("PATH", "/opt/bin"); ("GREETING", "hi")]%string)
  /\ forallb (fun kv => plain_key (fst kv))
       [("PATH", "/opt/bin"); ("GREETING", "hi")]%string = true
  /\ In (EvSpawn 4242 ["/bin/sh"; "-c"; "echo hi"]%string ""
           ["PATH=/bin"; "PATH=/opt/bin"; "GREETING=hi"]%string true)
        (snd (run quiet_linux with_own_path))
  /\ process_Getenv ["PATH=/bin"; "PATH=/opt/bin"; "GREETING=hi"]%string
       "PATH" = Some "/opt/bin"%string.
Proof.
  assert (Hnd : NoDup (map fst [("PATH", "/opt/bin");
                                ("GREETING", "hi")]%string)).
  { repeat constructor; simpl; intuition discriminate. }
  assert (H : In (EvSpawn 4242 ["/bin/sh"; "-c"; "echo hi"]%string ""
                    ["PATH=/bin"; "PATH=/opt/bin"; "GREETING=hi"]%string
                    true)
                (snd (run quiet_linux with_own_path)))
    by (vm_compute; tauto).
  refine (conj eq_refl (conj eq_refl (conj Hnd (conj eq_refl (conj H _))))).
  destruct (configured_values_override_the_inherited_environment
              quiet_linux with_own_path
              [("PATH", "/opt/bin"); ("GREETING", "hi")]%string _ _ _ _ _
              eq_refl eq_refl Hnd eq_refl H) as (_ & Hfind & _).
  apply Hfind. simpl. tauto.
Defined.

(** ** The order of the effects *)

(** X3. A process is spawned only after, in this order, the pipe was
    allocated, the command context made, the drain goroutine started and the
    line "Executing" shown with the very argument vector the process gets;
    it runs in the configured working directory, in a process group of its
    own unless on windows.  Then [cmd.Wait] returns, the write end of the
    pipe is closed, and only after that the [select] runs. *)
Theorem spawn_follows_pipe_context_and_echo
    (w : World) (data : ResourceData) (pid : Z) (argv : list string)
    (dir : string) (env : list string) (sp : bool) :
  In (EvSpawn pid argv dir env sp) (snd (run w data)) ->
  dir = working_dir data
  /\ sp = negb (String.eqb (GOOS w) "windows")
  /\ exists log d err now b ts tail,
       snd (run w data)
       = log ++ [EvPipe; EvWithTimeout d; EvGoCopyOutput; EvExecuting argv;
                 EvSpawn pid argv dir env sp; EvWait pid err now;
                 EvClosePw; EvSelect b ts] ++ tail
       /\ (forall ev, In ev log -> exists eff, ev = EvLog eff)
       /\ (forall ev, In ev tail -> is_select_event ev = true)
       /\ now <= ts.
Proof.
  intros H.
  apply spawn_outline in H
    as (env0 & eff & err & now & _ & _ & _ & _ & _ & Hd & _ & Hs & _ & Htr).
  split; [exact Hd|]. split; [exact Hs|].
  exists (log_trace (Getenv_MaxTimeOut w) eff), (Duration_of_seconds eff),
    err, now, (select_branch w (Duration_of_seconds eff) now),
    (select_time w (Duration_of_seconds eff) now),
    (select_tail w (Duration_of_seconds eff) (Some pid) now).
  split; [exact Htr|]. split; [|split].
  - intros ev Hev. exists eff. now apply log_trace_in in Hev.
  - intros ev Hev. now apply select_tail_all_select in Hev.
  - apply select_time_after_now.
Qed.

Lemma spawn_follows_pipe_context_and_echo_witness :
  In (EvSpawn 4242 ["/bin/sh"; "-c"; "echo hi"]%string ""
        ["PATH=/bin"; "GREETING=hi"]%string true)
     (snd (run quiet_linux (echo_hi (Some 10))))
  /\ ""%string = working_dir (echo_hi (Some 10))
  /\ true = negb (String.eqb (GOOS quiet_linux) "windows")
  /\ exists log d err now b ts tail,
       snd (run quiet_linux (echo_hi (Some 10)))
       = log ++ [EvPipe; EvWithTimeout d; EvGoCopyOutput;
                 EvExecuting ["/bin/sh"; "-c"; "echo hi"]%string;
                 EvSpawn 4242 ["/bin/sh"; "-c"; "echo hi"]%string ""
                   ["PATH=/bin"; "GREETING=hi"]%string true;
                 EvWait 4242 err now; EvClosePw; EvSelect b ts] ++ tail
       /\ (forall ev, In ev log -> exists eff, ev = EvLog eff)
       /\ (forall ev, In ev tail -> is_select_event ev = true)
       /\ now <= ts.
Proof.
  assert (H : In (EvSpawn 4242 ["/bin/sh"; "-c"; "echo hi"]%string ""
                    ["PATH=/bin"; "GREETING=hi"]%string true)
                (snd (run quiet_linux (echo_hi (Some 10)))))
    by (vm_compute; tauto).
  split; [exact H|].
  exact (spawn_follows_pipe_context_and_echo quiet_linux
           (echo_hi (Some 10)) _ _ _ _ _ H).
Defined.

(** ** The failure of [os.Pipe] *)

Lemma ceiling_effective_timeout t r c :
  ceiling t = inl c -> exists eff, effective_timeout r t = Some eff.
Proof.
  intros Hc. unfold effective_timeout.
  destruct (apply_max_timeout_cases t r []) as
    [(k & Hl & Ha & _) | (eff & tr0 & Hm & _)].
  - unfold ceiling in Hc. rewrite Hl, Ha in Hc. discriminate.
  - exists eff. now rewrite Hm.
Qed.

(** X4. When the pipe cannot be allocated, a call with a non-empty command,
    string environment values and a well-formed ceiling returns the error
    "failed to initialize pipe for output: " followed by the reason; it has
    done nothing but write the log line of the ceiling, if [MAX_TIMEOUT] is
    set: no context is made, nothing is shown and no process is spawned. *)
Theorem pipe_failure_is_returned_before_any_spawn
    (w : World) (data : ResourceData) (reason : string) (c : Z) :
  command data <> ""%string -> env_strings data = true ->
  ceiling (Getenv_MaxTimeOut w) = inl c ->
  pipe_error w = Some reason ->
  exists eff,
    effective_timeout (requested_timeout data) (Getenv_MaxTimeOut w)
    = Some eff
    /\ run w data
       = (Failed (Errorf
            ("failed to initialize pipe for output: " ++ reason)),
          log_trace (Getenv_MaxTimeOut w) eff).
Proof.
  intros Hc He Hceil Hp.
  destruct (ceiling_effective_timeout _ (requested_timeout data) _ Hceil)
    as [eff Heff].
  exists eff. split; [exact Heff|].
  destruct (run_cases w data) as
    [[Hc' _] | [(_ & He' & _) | [(_ & _ & k & Hl & Ha & _)
    | [(_ & _ & e1 & tr0 & r1 & Hm & _ & Hp' & Hr)
    | (_ & _ & e1 & tr0 & env0 & _ & _ & _ & Hp' & _)]]]].
  - contradiction.
  - congruence.
  - unfold ceiling in Hceil. rewrite Hl, Ha in Hceil. discriminate.
  - pose proof (apply_max_timeout_log _ _ _ _ Hm) as ->.
    unfold effective_timeout in Heff. rewrite Hm in Heff.
    injection Heff as ->. rewrite Hp in Hp'. injection Hp' as <-.
    exact Hr.
  - congruence.
Qed.

Lemma pipe_failure_is_returned_before_any_spawn_witness :
  command (echo_hi (Some 10)) <> ""%string
  /\ env_strings (echo_hi (Some 10)) = true
  /\ ceiling (Getenv_MaxTimeOut without_descriptors) = inl 30
  /\ pipe_error without_descriptors = Some "too many open files"%string
  /\ exists eff,
       effective_timeout (requested_timeout (echo_hi (Some 10)))
         (Getenv_MaxTimeOut without_descriptors) = Some eff
       /\ run without_descriptors (echo_hi (Some 10))
          = (Failed (Errorf
               ("failed to initialize pipe for output: "
                ++ "too many open files")),
             log_trace (Getenv_MaxTimeOut without_descriptors) eff).
Proof.
  assert (H1 : command (echo_hi (Some 10)) <> ""%string) by discriminate.
  refine (conj H1 (conj eq_refl (conj eq_refl (conj eq_refl _)))).
  exact (pipe_failure_is_returned_before_any_spawn without_descriptors
           (echo_hi (Some 10)) _ 30 H1 eq_refl eq_refl eq_refl).
Defined.

(** ** The outcome of a started command *)

Lemma Success_inv st : Success st = true -> st = Exited 0.
Proof.
  destruct st as [code | sig]; [|discriminate].
  destruct code; [reflexivity | discriminate | discriminate].
Qed.

Lemma spawn_deadline w data pid argv dir env sp d :
  In (EvSpawn pid argv dir env sp) (snd (run w data)) ->
  In (EvWithTimeout d) (snd (run w data)) ->
  exists err now,
    cmd_Wait w d = (err, now)
    /\ 0 < d
    /\ fst (run w data)
       = match err with
         | Some e => Failed (Errorf (failure_message w data e))
         | None => Ok
         end
    /\ In (EvWait pid err now) (snd (run w data)).
Proof.
  intros Hs Hd.
  apply run_deadline_is_effective_timeout in Hd as (eff' & Heff' & ->).
  apply spawn_outline in Hs
    as (env0 & eff & err & now & _ & Heff & Hstart & Hw & _ & _ & _ & _
        & Hres & Htr).
  rewrite Heff in Heff'. injection Heff' as <-.
  exists err, now. split; [exact Hw|]. split; [|split].
  - unfold cmd_Start in Hstart.
    destruct (lookpath_error w); [discriminate|].
    destruct (Duration_of_seconds eff <=? 0) eqn:E; [discriminate|].
    now apply Z.leb_gt in E.
  - exact Hres.
  - rewrite Htr. apply in_or_app. right. simpl. tauto.
Qed.

(** X5. A call returns no error only if a process was spawned and exited by
    itself with status 0 before the deadline of its command context:
    success is never reported for a command that was not started, was
    killed, or exited with another status. *)
Theorem success_means_exit_zero_before_deadline
    (w : World) (data : ResourceData) :
  fst (run w data) = Ok ->
  exists pid argv dir env sp d t,
    In (EvSpawn pid argv dir env sp) (snd (run w data))
    /\ In (EvWithTimeout d) (snd (run w data))
    /\ In (EvWait pid None t) (snd (run w data))
    /\ exit_after w = Some t /\ t < d /\ exit_state w = Exited 0.
Proof.
  intros Hok.
  destruct (run_outline w data) as
    [[_ Hno] | [(eff & reason & _ & _ & _ & _ & Hr)
    | (env0 & eff & process & err & now & _ & _ & _ & _ & _ & Hcall
       & Hres & Htr)]].
  - contradiction.
  - rewrite Hr in Hok. discriminate.
  - rewrite Hres in Hok.
    destruct (select_panics _ _ _ _); [discriminate|].
    destruct err as [e|]; [discriminate|].
    unfold process_call in Hcall.
    destruct (cmd_Start w (Duration_of_seconds eff)) as [e | pid];
      [discriminate|].
    destruct (cmd_Wait w (Duration_of_seconds eff)) as [err now'] eqn:Hw.
    injection Hcall as <- -> ->.
    unfold cmd_Wait in Hw.
    destruct (exit_after w) as [t|]; [|discriminate].
    destruct (t <? Duration_of_seconds eff) eqn:Elt; [|discriminate].
    destruct (Success (exit_state w)) eqn:Es; [|discriminate].
    injection Hw as <-.
    exists pid, (cmdargs_of w data), (working_dir data),
      (Environ w ++ env0), (negb (String.eqb (GOOS w) "windows")),
      (Duration_of_seconds eff), t.
    rewrite Htr. cbn [call_trace].
    repeat split.
    + apply in_or_app. right. apply in_or_app. right. simpl. tauto.
    + apply in_or_app. right. simpl. tauto.
    + apply in_or_app. right. apply in_or_app. right. simpl. tauto.
    + now apply Z.ltb_lt.
    + now apply Success_inv.
Qed.

Lemma success_means_exit_zero_before_deadline_witness :
  fst (run quiet_linux (echo_hi (Some 10))) = Ok
  /\ exists pid argv dir env sp d t,
       In (EvSpawn pid argv dir env sp)
          (snd (run quiet_linux (echo_hi (Some 10))))
       /\ In (EvWithTimeout d) (snd (run quiet_linux (echo_hi (Some 10))))
       /\ In (EvWait pid None t) (snd (run quiet_linux (echo_hi (Some 10))))
       /\ exit_after quiet_linux = Some t /\ t < d
       /\ exit_state quiet_linux = Exited 0.
Proof.
  assert (H : fst (run quiet_linux (echo_hi (Some 10))) = Ok)
    by (vm_compute; reflexivity).
  split; [exact H|].
  exact (success_means_exit_zero_before_deadline quiet_linux
           (echo_hi (Some 10)) H).
Defined.

(** X6. A started command that has not exited by itself when the deadline
    of its command context passes is killed: [cmd.Wait] returns at the
    deadline, and the call fails with "signal: killed" and the command text
    in its message, whatever case the [select] takes. *)
Theorem deadline_kills_and_fails
    (w : World) (data : ResourceData) (pid : Z) (argv : list string)
    (dir : string) (env : list string) (sp : bool) (d : Z) :
  In (EvSpawn pid argv dir env sp) (snd (run w data)) ->
  In (EvWithTimeout d) (snd (run w data)) ->
  exit_after w = None \/ (exists t, exit_after w = Some t /\ d <= t) ->
  let killed := ExitError (Signaled "killed") in
  fst (run w data) = Failed (Errorf (failure_message w data killed))
  /\ In (EvWait pid (Some killed) d) (snd (run w data))
  /\ embeds "signal: killed" (failure_message w data killed)
  /\ embeds (command data) (failure_message w data killed).
Proof.
  intros Hs Hd Hexit killed.
  destruct (spawn_deadline _ _ _ _ _ _ _ _ Hs Hd)
    as (err & now & Hw & _ & Hres & Hin).
  assert (Hk : (err, now) = (Some killed, d)).
  { rewrite <- Hw. unfold cmd_Wait.
    destruct Hexit as [-> | (t & -> & Hle)]; [reflexivity|].
    apply Z.ltb_ge in Hle. now rewrite Hle. }
  injection Hk as -> ->.
  split; [exact Hres|]. split; [exact Hin|].
  pose proof (failure_message_embeds w data killed) as (H1 & H2 & _).
  split; assumption.
Qed.

Lemma deadline_kills_and_fails_witness :
  In (EvSpawn 4242 ["/bin/sh"; "-c"; "echo hi"]%string ""
        ["PATH=/bin"; "GREETING=hi"]%string true)
     (snd (run endless_command (echo_hi (Some 10))))
  /\ In (EvWithTimeout (10 * Second))
        (snd (run endless_command (echo_hi (Some 10))))
  /\ exit_after endless_command = None
  /\ fst (run endless_command (echo_hi (Some 10)))
     = Failed (Errorf
         "Error running command 'echo hi': signal: killed. Output: hi").
Proof.
  assert (H1 : In (EvSpawn 4242 ["/bin/sh"; "-c"; "echo hi"]%string ""
                     ["PATH=/bin"; "GREETING=hi"]%string true)
                 (snd (run endless_command (echo_hi (Some 10)))))
    by (vm_compute; tauto).
  assert (H2 : In (EvWithTimeout (10 * Second))
                 (snd (run endless_command (echo_hi (Some 10)))))
    by (vm_compute; tauto).
  refine (conj H1 (conj H2 (conj eq_refl _))).
  destruct (deadline_kills_and_fails endless_command (echo_hi (Some 10))
              _ _ _ _ _ _ H1 H2 (or_introl eq_refl)) as [Hres _].
  rewrite Hres. reflexivity.
Defined.

(** X7. A started command that ends by itself before the deadline in any
    state other than exit status 0, be it another status or a signal, fails
    the call with that state as the reason in the message: "exit status N"
    or "signal: name". *)
Theorem unsuccessful_exit_fails_with_its_state
    (w : World) (data : ResourceData) (pid : Z) (argv : list string)
    (dir : string) (env : list string) (sp : bool) (d t : Z) :
  In (EvSpawn pid argv dir env sp) (snd (run w data)) ->
  In (EvWithTimeout d) (snd (run w data)) ->
  exit_after w = Some t -> t < d -> exit_state w <> Exited 0 ->
  fst (run w data)
  = Failed (Errorf (failure_message w data (ExitError (exit_state w))))
  /\ In (EvWait pid (Some (ExitError (exit_state w))) t) (snd (run w data))
  /\ embeds (match exit_state w with
             | Exited code => "exit status " ++ itoa code
             | Signaled sig => "signal: " ++ sig
             end)%string
       (failure_message w data (ExitError (exit_state w))).
Proof.
  intros Hs Hd Hexit Hlt Hst.
  destruct (spawn_deadline _ _ _ _ _ _ _ _ Hs Hd)
    as (err & now & Hw & _ & Hres & Hin).
  assert (Hk : (err, now) = (Some (ExitError (exit_state w)), t)).
  { rewrite <- Hw. unfold cmd_Wait. rewrite Hexit.
    apply Z.ltb_lt in Hlt. rewrite Hlt.
    destruct (Success (exit_state w)) eqn:Es; [|reflexivity].
    apply Success_inv in Es. contradiction. }
  injection Hk as -> ->.
  split; [exact Hres|]. split; [exact Hin|].
  pose proof (failure_message_embeds w data (ExitError (exit_state w)))
    as (_ & H2 & _).
  unfold Error_text in H2. now destruct (exit_state w).
Qed.

Lemma unsuccessful_exit_fails_with_its_state_witness :
  In (EvSpawn 4242 ["/bin/sh"; "-c"; "echo hi"]%string ""
        ["PATH=/bin"; "GREETING=hi"]%string true)
     (snd (run failing_command (echo_hi (Some 10))))
  /\ In (EvWithTimeout (10 * Second))
        (snd (run failing_command (echo_hi (Some 10))))
  /\ exit_after failing_command = Some (2 * Second)
  /\ 2 * Second < 10 * Second
  /\ exit_state failing_command <> Exited 0
  /\ fst (run failing_command (echo_hi (Some 10)))
     = Failed (Errorf
         "Error running command 'echo hi': exit status 3. Output: hi").
Proof.
  assert (H1 : In (EvSpawn 4242 ["/bin/sh"; "-c"; "echo hi"]%string ""
                     ["PATH=/bin"; "GREETING=hi"]%string true)
                 (snd (run failing_command (echo_hi (Some 10)))))
    by (vm_compute; tauto).
  assert (H2 : In (EvWithTimeout (10 * Second))
                 (snd (run failing_command (echo_hi (Some 10)))))
    by (vm_compute; tauto).
  assert (H4 : 2 * Second < 10 * Second) by (vm_compute; reflexivity).
  assert (H5 : exit_state failing_command <> Exited 0) by discriminate.
  refine (conj H1 (conj H2 (conj eq_refl (conj H4 (conj H5 _))))).
  destruct (unsuccessful_exit_fails_with_its_state failing_command
              (echo_hi (Some 10)) _ _ _ _ _ _ _ H1 H2 eq_refl H4 H5)
    as [Hres _].
  rewrite Hres. reflexivity.
Defined.

(** ** The final [select] *)

Lemma omin_le a b : omin a b <= b.
Proof. destruct a; simpl; lia. Qed.

Lemma cmd_Wait_time w d err now : cmd_Wait w d = (err, now) -> now <= d.
Proof.
  unfold cmd_Wait. destruct (exit_after w) as [t|].
  - destruct (t <? d) eqn:E; intros [= _ <-]; [|lia].
    apply Z.ltb_lt in E. lia.
  - intros [= _ <-]. lia.
Qed.

Lemma process_call_time w d process err now :
  process_call w d = (process, err, now) -> now <= Z.max 0 d.
Proof.
  unfold process_call. destruct (cmd_Start w d) as [e | pid].
  - intros [= _ _ <-]. lia.
  - destruct (cmd_Wait w d) as [e n] eqn:Hw. intros [= _ _ <-].
    apply cmd_Wait_time in Hw. lia.
Qed.

Lemma select_time_le w d now :
  now <= Z.max 0 d -> select_time w d now <= Z.max 0 d.
Proof.
  intros H. unfold select_time, ctx_done_after.
  pose proof (omin_le (drain_done_after w)
                (omin (caller_done_after w) (Z.max 0 d))).
  pose proof (omin_le (caller_done_after w) (Z.max 0 d)). lia.
Qed.

(** The case the [select] takes is ready when it is taken. *)
Lemma select_branch_ready w d now :
  is_ready w d (select_time w d now) (select_branch w d now) = true.
Proof.
  unfold select_branch.
  destruct (find _ _) as [b|] eqn:Ef.
  - now apply find_some in Ef.
  - exfalso.
    assert (Hall : forall b, is_ready w d (select_time w d now) b = false).
    { intros b. apply (find_none _ _ Ef). apply in_or_app. right.
      destruct b; simpl; tauto. }
    pose proof (Hall CopyDone) as H1. pose proof (Hall CallerDone) as H2.
    pose proof (Hall TimeoutDone) as H3.
    unfold is_ready, ready_after, select_time, omin, ctx_done_after in *.
    destruct (drain_done_after w) as [td|];
      destruct (caller_done_after w) as [tc|];
      repeat match goal with
             | H : (_ <=? _) = false |- _ => apply Z.leb_gt in H
             end; lia.
Qed.

Lemma timeout_case_after_deadline w d now :
  select_branch w d now = TimeoutDone -> Z.max 0 d <= select_time w d now.
Proof.
  intros Hb. pose proof (select_branch_ready w d now) as Hr.
  rewrite Hb in Hr. unfold is_ready, ready_after, ctx_done_after in Hr.
  now apply Z.leb_le in Hr.
Qed.

(** A call with an event other than the log line is supervised. *)
Lemma beyond_log_outline w data ev :
  In ev (snd (run w data)) -> is_log ev = false ->
  exists env0 eff process err now,
    effective_timeout (requested_timeout data) (Getenv_MaxTimeOut w)
    = Some eff
    /\ process_call w (Duration_of_seconds eff) = (process, err, now)
    /\ fst (run w data)
       = (if select_panics w (Duration_of_seconds eff) process now
          then Panicked "invalid memory address or nil pointer dereference"
          else match err with
               | Some e => Failed (Errorf (failure_message w data e))
               | None => Ok
               end)
    /\ snd (run w data)
       = log_trace (Getenv_MaxTimeOut w) eff
         ++ [EvPipe; EvWithTimeout (Duration_of_seconds eff);
             EvGoCopyOutput; EvExecuting (cmdargs_of w data)]
         ++ call_trace (cmdargs_of w data) (working_dir data)
              (Environ w ++ env0)
              (negb (String.eqb (GOOS w) "windows")) (process, err, now)
         ++ [EvClosePw;
             EvSelect (select_branch w (Duration_of_seconds eff) now)
               (select_time w (Duration_of_seconds eff) now)]
         ++ select_tail w (Duration_of_seconds eff) process now.
Proof.
  intros Hin Hlog.
  destruct (run_outline w data) as
    [[Hnil _] | [(eff & reason & _ & _ & _ & _ & Hr)
    | (env0 & eff & process & err & now & _ & _ & _ & Heff & _ & Hcall
       & Hres & Htr)]].
  - rewrite Hnil in Hin. contradiction.
  - rewrite Hr in Hin. apply log_trace_in in Hin. subst ev. discriminate.
  - exists env0, eff, process, err, now. auto.
Qed.

(** The [select] event and the context event of a trace. *)
Lemma select_event_inv w data b ts :
  In (EvSelect b ts) (snd (run w data)) ->
  exists env0 eff process err now,
    effective_timeout (requested_timeout data) (Getenv_MaxTimeOut w)
    = Some eff
    /\ process_call w (Duration_of_seconds eff) = (process, err, now)
    /\ b = select_branch w (Duration_of_seconds eff) now
    /\ ts = select_time w (Duration_of_seconds eff) now
    /\ fst (run w data)
       = (if select_panics w (Duration_of_seconds eff) process now
          then Panicked "invalid memory address or nil pointer dereference"
          else match err with
               | Some e => Failed (Errorf (failure_message w data e))
               | None => Ok
               end)
    /\ snd (run w data)
       = log_trace (Getenv_MaxTimeOut w) eff
         ++ [EvPipe; EvWithTimeout (Duration_of_seconds eff);
             EvGoCopyOutput; EvExecuting (cmdargs_of w data)]
         ++ call_trace (cmdargs_of w data) (working_dir data)
              (Environ w ++ env0)
              (negb (String.eqb (GOOS w) "windows")) (process, err, now)
         ++ [EvClosePw; EvSelect b ts]
         ++ select_tail w (Duration_of_seconds eff) process now.
Proof.
  intros H.
  destruct (beyond_log_outline _ _ _ H eq_refl)
    as (env0 & eff & process & err & now & Heff & Hcall & Hres & Htr).
  exists env0, eff, process, err, now.
  assert (Hb : b = select_branch w (Duration_of_seconds eff) now
               /\ ts = select_time w (Duration_of_seconds eff) now).
  { rewrite Htr in H.
    repeat (apply in_app_or in H as [H | H]).
    - apply log_trace_in in H. discriminate.
    - simpl in H. intuition discriminate.
    - apply call_trace_no_select in H. discriminate.
    - simpl in H. destruct H as [H | [H | []]]; [discriminate|].
      now injection H as <- <-.
    - apply select_tail_in in H
        as (_ & _ & ? & _ & [? | (? & _ & ?)]); discriminate. }
  destruct Hb as [-> ->]. auto 10.
Qed.

Lemma context_event_inv w data d eff :
  In (EvWithTimeout d) (snd (run w data)) ->
  effective_timeout (requested_timeout data) (Getenv_MaxTimeOut w)
  = Some eff ->
  d = Duration_of_seconds eff.
Proof.
  intros Hd Heff.
  apply run_deadline_is_effective_timeout in Hd as (eff' & Heff' & ->).
  rewrite Heff in Heff'. now injection Heff' as <-.
Qed.

(** X8. The final [select] never waits beyond the deadline of the command
    context: it proceeds when the process call has returned and the drain
    has ended or the caller has cancelled, and at the deadline at the
    latest, also when the drain never ends. *)
Theorem select_proceeds_by_the_deadline
    (w : World) (data : ResourceData) (b : branch) (ts d : Z) :
  In (EvSelect b ts) (snd (run w data)) ->
  In (EvWithTimeout d) (snd (run w data)) ->
  ts <= Z.max 0 d
  /\ (b = TimeoutDone -> ts = Z.max 0 d)
  /\ (b = CopyDone -> exists td, drain_done_after w = Some td /\ td <= ts)
  /\ (b = CallerDone -> exists tc, caller_done_after w = Some tc /\ tc <= ts).
Proof.
  intros Hs Hd.
  apply select_event_inv in Hs
    as (env0 & eff & process & err & now & Heff & Hcall & -> & -> & _).
  rewrite (context_event_inv _ _ _ _ Hd Heff).
  pose proof (process_call_time _ _ _ _ _ Hcall) as Hnow.
  pose proof (select_time_le w _ _ Hnow) as Hle.
  pose proof (select_branch_ready w (Duration_of_seconds eff) now) as Hr.
  split; [exact Hle|]. split; [|split]; intros Hb;
    rewrite Hb in Hr; unfold is_ready, ready_after in Hr.
  - unfold ctx_done_after in Hr. apply Z.leb_le in Hr. lia.
  - destruct (drain_done_after w) as [td|]; [|discriminate].
    exists td. split; [reflexivity | now apply Z.leb_le].
  - destruct (caller_done_after w) as [tc|]; [|discriminate].
    exists tc. split; [reflexivity | now apply Z.leb_le].
Qed.

Lemma select_proceeds_by_the_deadline_witness :
  In (EvSelect TimeoutDone (10 * Second))
     (snd (run pipe_held_open (echo_hi (Some 10))))
  /\ In (EvWithTimeout (10 * Second))
        (snd (run pipe_held_open (echo_hi (Some 10))))
  /\ 10 * Second <= Z.max 0 (10 * Second).
Proof.
  assert (H1 : In (EvSelect TimeoutDone (10 * Second))
                 (snd (run pipe_held_open (echo_hi (Some 10)))))
    by (vm_compute; tauto).
  assert (H2 : In (EvWithTimeout (10 * Second))
                 (snd (run pipe_held_open (echo_hi (Some 10)))))
    by (vm_compute; tauto).
  refine (conj H1 (conj H2 _)).
  exact (proj1 (select_proceeds_by_the_deadline pipe_held_open
                  (echo_hi (Some 10)) _ _ _ H1 H2)).
Defined.

(** X10. When the command ends by itself before the deadline, the drain
    ends before the deadline too and the caller does not cancel, the call
    waits for the drain: the [select] takes the case of [copyDoneCh], at the
    later of the two times, whatever the scheduler prefers, and neither
    looks up a process group nor sends a signal. *)
Theorem drain_is_awaited_when_it_ends_before_the_deadline
    (w : World) (data : ResourceData) (pid : Z) (argv : list string)
    (dir : string) (env : list string) (sp : bool) (d t td : Z) :
  In (EvSpawn pid argv dir env sp) (snd (run w data)) ->
  In (EvWithTimeout d) (snd (run w data)) ->
  exit_after w = Some t -> t < d ->
  drain_done_after w = Some td -> td < d ->
  caller_done_after w = None ->
  In (EvSelect CopyDone (Z.max t td)) (snd (run w data))
  /\ existsb is_getpgid (snd (run w data)) = false
  /\ existsb is_kill (snd (run w data)) = false.
Proof.
  intros Hs Hd Hexit Hlt Hdrain Htd Hcaller.
  apply spawn_outline in Hs
    as (env0 & eff & err & now & _ & Heff & Hstart & Hw & _ & _ & _ & _
        & _ & Htr).
  rewrite (context_event_inv _ _ _ _ Hd Heff) in *.
  set (D := Duration_of_seconds eff) in *.
  assert (Hnow : now = t).
  { unfold cmd_Wait in Hw. rewrite Hexit in Hw.
    apply Z.ltb_lt in Hlt. rewrite Hlt in Hw. now injection Hw as _ <-. }
  subst now.
  assert (Hts : select_time w D t = Z.max t td).
  { unfold select_time, omin, ctx_done_after.
    rewrite Hdrain, Hcaller. lia. }
  assert (Hb : select_branch w D t = CopyDone).
  { pose proof (select_branch_ready w D t) as Hr.
    destruct (select_branch w D t) eqn:Eb; [reflexivity | |];
      unfold is_ready, ready_after in Hr.
    - rewrite Hcaller in Hr. discriminate.
    - unfold ctx_done_after in Hr. apply Z.leb_le in Hr. lia. }
  rewrite Htr, Hb, Hts.
  assert (Htail : select_tail w D (Some pid) t = []).
  { unfold select_tail. now rewrite Hb. }
  rewrite Htail, app_nil_r. split; [|split].
  - apply in_or_app. right. simpl. tauto.
  - rewrite existsb_app, (existsb_logs _ _ eff); [reflexivity | |];
      [intros ev; apply log_trace_in | reflexivity].
  - rewrite existsb_app, (existsb_logs _ _ eff); [reflexivity | |];
      [intros ev; apply log_trace_in | reflexivity].
Qed.

Lemma drain_is_awaited_when_it_ends_before_the_deadline_witness :
  In (EvSpawn 4242 ["/bin/sh"; "-c"; "echo hi"]%string ""
        ["PATH=/bin"; "GREETING=hi"]%string true)
     (snd (run quiet_linux (echo_hi (Some 10))))
  /\ In (EvWithTimeout (10 * Second))
        (snd (run quiet_linux (echo_hi (Some 10))))
  /\ exit_after quiet_linux = Some (5 * Second)
  /\ 5 * Second < 10 * Second
  /\ drain_done_after quiet_linux = Some (5 * Second + 1000000)
  /\ 5 * Second + 1000000 < 10 * Second
  /\ caller_done_after quiet_linux = None
  /\ In (EvSelect CopyDone (Z.max (5 * Second) (5 * Second + 1000000)))
        (snd (run quiet_linux (echo_hi (Some 10))))
  /\ existsb is_getpgid (snd (run quiet_linux (echo_hi (Some 10)))) = false
  /\ existsb is_kill (snd (run quiet_linux (echo_hi (Some 10)))) = false.
Proof.
  assert (H1 : In (EvSpawn 4242 ["/bin/sh"; "-c"; "echo hi"]%string ""
                     ["PATH=/bin"; "GREETING=hi"]%string true)
                 (snd (run quiet_linux (echo_hi (Some 10)))))
    by (vm_compute; tauto).
  assert (H2 : In (EvWithTimeout (10 * Second))
                 (snd (run quiet_linux (echo_hi (Some 10)))))
    by (vm_compute; tauto).
  assert (H4 : 5 * Second < 10 * Second) by (vm_compute; reflexivity).
  assert (H6 : 5 * Second + 1000000 < 10 * Second)
    by (vm_compute; reflexivity).
  refine (conj H1 (conj H2 (conj eq_refl (conj H4 (conj eq_refl
           (conj H6 (conj eq_refl _))))))).
  exact (drain_is_awaited_when_it_ends_before_the_deadline quiet_linux
           (echo_hi (Some 10)) _ _ _ _ _ _ _ _ H1 H2 eq_refl H4 eq_refl H6
           eq_refl).
Defined.

(** X11. When the write end of the pipe is never closed by all its holders
    (the drain never ends) and the caller does not cancel, the call does not
    hang: at the deadline of the command context, not earlier and not later,
    the [select] takes the timeout case, looks up the process group of the
    command once and signals it if the lookup succeeds; these are the last
    effects of the call. *)
Theorem held_pipe_ends_at_the_deadline_with_a_group_signal
    (w : World) (data : ResourceData) (pid : Z) (argv : list string)
    (dir : string) (env : list string) (d : Z) :
  In (EvSpawn pid argv dir env true) (snd (run w data)) ->
  In (EvWithTimeout d) (snd (run w data)) ->
  drain_done_after w = None -> caller_done_after w = None ->
  exists pre err now,
    snd (run w data)
    = pre ++ [EvWait pid err now; EvClosePw; EvSelect TimeoutDone d;
              EvGetpgid pid (Getpgid w d pid)]
          ++ group_signal (Getpgid w d pid)
    /\ now <= d.
Proof.
  intros Hs Hd Hdrain Hcaller.
  apply spawn_outline in Hs
    as (env0 & eff & err & now & _ & Heff & Hstart & Hw & _ & _ & _ & Hsp
        & _ & Htr).
  rewrite (context_event_inv _ _ _ _ Hd Heff) in *.
  set (D := Duration_of_seconds eff) in *.
  assert (HD : 0 < D).
  { unfold cmd_Start in Hstart.
    destruct (lookpath_error w); [discriminate|].
    destruct (D <=? 0) eqn:E; [discriminate|]. now apply Z.leb_gt in E. }
  pose proof (cmd_Wait_time _ _ _ _ Hw) as Hnow.
  assert (Hts : select_time w D now = D).
  { unfold select_time, omin, ctx_done_after.
    rewrite Hdrain, Hcaller. lia. }
  assert (Hb : select_branch w D now = TimeoutDone).
  { pose proof (select_branch_ready w D now) as Hr.
    destruct (select_branch w D now) eqn:Eb; [| |reflexivity];
      unfold is_ready, ready_after in Hr.
    - rewrite Hdrain in Hr. discriminate.
    - rewrite Hcaller in Hr. discriminate. }
  assert (Hwin : String.eqb (GOOS w) "windows" = false).
  { destruct (String.eqb (GOOS w) "windows"); [discriminate | reflexivity]. }
  exists (log_trace (Getenv_MaxTimeOut w) eff
          ++ [EvPipe; EvWithTimeout D; EvGoCopyOutput; EvExecuting argv;
              EvSpawn pid argv dir env true]), err, now.
  split; [|exact Hnow].
  rewrite Htr. unfold select_tail. rewrite Hb, Hts, Hwin.
  cbn [branch_eqb andb negb]. rewrite <- !app_assoc. reflexivity.
Qed.

Lemma held_pipe_ends_at_the_deadline_with_a_group_signal_witness :
  In (EvSpawn 4242 ["/bin/sh"; "-c"; "echo hi"]%string ""
        ["PATH=/bin"; "GREETING=hi"]%string true)
     (snd (run pipe_held_open (echo_hi (Some 10))))
  /\ In (EvWithTimeout (10 * Second))
        (snd (run pipe_held_open (echo_hi (Some 10))))
  /\ drain_done_after pipe_held_open = None
  /\ caller_done_after pipe_held_open = None
  /\ exists pre err now,
       snd (run pipe_held_open (echo_hi (Some 10)))
       = pre ++ [EvWait 4242 err now; EvClosePw;
                 EvSelect TimeoutDone (10 * Second);
                 EvGetpgid 4242 (Getpgid pipe_held_open (10 * Second) 4242)]
             ++ group_signal (Getpgid pipe_held_open (10 * Second) 4242)
       /\ now <= 10 * Second.
Proof.
  assert (H1 : In (EvSpawn 4242 ["/bin/sh"; "-c"; "echo hi"]%string ""
                     ["PATH=/bin"; "GREETING=hi"]%string true)
                 (snd (run pipe_held_open (echo_hi (Some 10)))))
    by (vm_compute; tauto).
  assert (H2 : In (EvWithTimeout (10 * Second))
                 (snd (run pipe_held_open (echo_hi (Some 10)))))
    by (vm_compute; tauto).
  refine (conj H1 (conj H2 (conj eq_refl (conj eq_refl _)))).
  exact (held_pipe_ends_at_the_deadline_with_a_group_signal pipe_held_open
           (echo_hi (Some 10)) _ _ _ _ _ H1 H2 eq_refl eq_refl).
Defined.

(** X12. A command that cannot be started is reported as an error, not as
    a panic, when the drain ends before the deadline of the command context:
    the [select] does not take the timeout case then, and the call returns
    the message of line 195 with the reason of the start failure. *)
Theorem start_failure_is_returned_when_the_drain_ends_first
    (w : World) (data : ResourceData) (e : cmderr) (d td : Z) :
  In (EvStartFailed e) (snd (run w data)) ->
  In (EvWithTimeout d) (snd (run w data)) ->
  drain_done_after w = Some td -> 0 <= td < d ->
  fst (run w data) = Failed (Errorf (failure_message w data e))
  /\ existsb is_spawn (snd (run w data)) = false
  /\ embeds (Error_text e) (failure_message w data e).
Proof.
  intros Hf Hd Hdrain Htd.
  destruct (beyond_log_outline _ _ _ Hf eq_refl)
    as (env0 & eff & process & err & now & Heff & Hcall & Hres & Htr).
  rewrite (context_event_inv _ _ _ _ Hd Heff) in *.
  set (D := Duration_of_seconds eff) in *.
  assert (Hp : process = None /\ err = Some e).
  { rewrite Htr in Hf.
    repeat (apply in_app_or in Hf as [Hf | Hf]).
    - apply log_trace_in in Hf. discriminate.
    - simpl in Hf. intuition discriminate.
    - unfold call_trace in Hf.
      destruct process as [p|]; [|destruct err as [e'|]]; simpl in Hf.
      + intuition discriminate.
      + destruct Hf as [Hf | []]. now injection Hf as ->.
      + contradiction.
    - simpl in Hf. intuition discriminate.
    - apply select_tail_in in Hf
        as (_ & _ & p & _ & [Hg | (g & _ & Hg)]); discriminate. }
  destruct Hp as [-> ->].
  assert (Hnow : now = 0).
  { unfold process_call in Hcall.
    destruct (cmd_Start w D) as [e' | p].
    - now injection Hcall as _ <-.
    - destruct (cmd_Wait w D). discriminate. }
  subst now.
  assert (Hb : select_branch w D 0 <> TimeoutDone).
  { intros Hb. apply timeout_case_after_deadline in Hb.
    unfold select_time, omin, ctx_done_after in Hb. rewrite Hdrain in Hb.
    destruct (caller_done_after w); lia. }
  assert (Hnp : select_panics w D None 0 = false).
  { destruct (select_panics w D None 0) eqn:E; [|reflexivity].
    apply select_panics_timeout in E. contradiction. }
  rewrite Hres, Hnp. split; [reflexivity|]. split.
  - rewrite Htr. unfold select_tail. cbn [call_trace].
    rewrite !existsb_app, (existsb_logs _ _ eff);
      [|intros ev; apply log_trace_in | reflexivity].
    destruct (branch_eqb (select_branch w D 0) TimeoutDone
              && negb (String.eqb (GOOS w) "windows")); reflexivity.
  - apply failure_message_embeds.
Qed.

Lemma start_failure_is_returned_when_the_drain_ends_first_witness :
  In (EvStartFailed
        (StartError "exec: ksh: executable file not found in $PATH"))
     (snd (run missing_interpreter (echo_hi (Some 10))))
  /\ In (EvWithTimeout (10 * Second))
        (snd (run missing_interpreter (echo_hi (Some 10))))
  /\ drain_done_after missing_interpreter = Some 1000000
  /\ 0 <= 1000000 < 10 * Second
  /\ fst (run missing_interpreter (echo_hi (Some 10)))
     = Failed (Errorf
         (failure_message missing_interpreter (echo_hi (Some 10))
            (StartError "exec: ksh: executable file not found in $PATH"))).
Proof.
  assert (H1 : In (EvStartFailed
                     (StartError
                        "exec: ksh: executable file not found in $PATH"))
                 (snd (run missing_interpreter (echo_hi (Some 10)))))
    by (vm_compute; tauto).
  assert (H2 : In (EvWithTimeout (10 * Second))
                 (snd (run missing_interpreter (echo_hi (Some 10)))))
    by (vm_compute; tauto).
  assert (H4 : 0 <= 1000000 < 10 * Second) by (vm_compute; split; congruence).
  refine (conj H1 (conj H2 (conj eq_refl (conj H4 _)))).
  exact (proj1 (start_failure_is_returned_when_the_drain_ends_first
                  missing_interpreter (echo_hi (Some 10)) _ _ _
                  H1 H2 eq_refl H4)).
Defined.

(** ** The timeout in numbers *)

(** What lines 105-121 leave in [timeout], for every ceiling that
    [strconv.Atoi] accepts, negative ones included. *)
Lemma effective_timeout_formula t r c :
  ceiling t = inl c ->
  effective_timeout r t
  = Some (if c =? 0 then r else if r =? 0 then c else Z.min r c).
Proof.
  intros Hc. unfold ceiling in Hc.
  unfold effective_timeout, apply_max_timeout.
  destruct (String.length t =? 0)%nat; cbn [negb].
  - injection Hc as <-. reflexivity.
  - rewrite Hc. unfold_monad. f_equal.
    destruct (Z.gtb_spec r c), (Z.eqb_spec c 0); cbn [andb negb];
      repeat match goal with
             | |- context [?a =? ?b] => destruct (Z.eqb_spec a b)
             end; lia.
Qed.

Lemma Duration_exact eff :
  - max_exact_timeout <= eff <= max_exact_timeout ->
  Duration_of_seconds eff = eff * Second.
Proof.
  unfold max_exact_timeout, Duration_of_seconds, Second. intros H.
  apply wrap64_small. unfold in_int64. lia.
Qed.

(** A command context that is done when it is made starts nothing. *)
Lemma expired_never_starts w data eff :
  effective_timeout (requested_timeout data) (Getenv_MaxTimeOut w)
  = Some eff ->
  Duration_of_seconds eff <= 0 ->
  existsb is_spawn (snd (run w data)) = false /\ fst (run w data) <> Ok.
Proof.
  intros Heff Hd.
  destruct (run_outline w data) as
    [[Htr Hres] | [(eff' & reason & _ & _ & _ & _ & Hr)
    | (env0 & eff' & process & err & now & _ & _ & _ & Heff' & _ & Hcall
       & Hres & Htr)]].
  - rewrite Htr. split; [reflexivity | exact Hres].
  - rewrite Hr. cbn [fst snd]. split; [|discriminate].
    apply (existsb_logs _ _ eff'); [intros ev; apply log_trace_in|].
    reflexivity.
  - rewrite Heff in Heff'. injection Heff' as <-.
    assert (Hp : process = None /\ exists e, err = Some e).
    { unfold process_call, cmd_Start in Hcall.
      destruct (lookpath_error w).
      - injection Hcall as <- <- _. eauto.
      - apply Z.leb_le in Hd. rewrite Hd in Hcall.
        injection Hcall as <- <- _. eauto. }
    destruct Hp as [-> [e ->]]. split.
    + rewrite Htr. unfold select_tail. cbn [call_trace].
      rewrite !existsb_app, (existsb_logs _ _ eff);
        [|intros ev; apply log_trace_in | reflexivity].
      destruct (branch_eqb _ _ && negb _); reflexivity.
    + rewrite Hres. destruct (select_panics _ _ _ _); discriminate.
Qed.

(** X13. A positive ceiling bounds the whole call: when [MAX_TIMEOUT] holds
    a number [c] of seconds, positive and small enough for its nanoseconds
    to fit an [int64], and the requested timeout is not negative, the
    command context is made with a positive duration of a whole number of
    seconds, [c] seconds at most, and the final [select] of the call
    proceeds no later than [c] seconds after the context was made. *)
Theorem ceiling_bounds_the_command_and_the_wait
    (w : World) (data : ResourceData) (c d : Z) :
  ceiling (Getenv_MaxTimeOut w) = inl c ->
  0 < c <= max_exact_timeout ->
  0 <= requested_timeout data ->
  In (EvWithTimeout d) (snd (run w data)) ->
  (exists eff, 0 < eff <= c /\ d = eff * Second)
  /\ 0 < d <= c * Second
  /\ forall b ts, In (EvSelect b ts) (snd (run w data)) -> ts <= c * Second.
Proof.
  intros Hc Hpos Hr Hd.
  pose proof (effective_timeout_formula _ (requested_timeout data) _ Hc)
    as Heff.
  set (eff := if c =? 0 then _ else _) in Heff.
  assert (Hb : 0 < eff <= c).
  { subst eff. destruct (Z.eqb_spec c 0); [lia|].
    destruct (Z.eqb_spec (requested_timeout data) 0); lia. }
  pose proof (context_event_inv _ _ _ _ Hd Heff) as ->.
  assert (Hex : Duration_of_seconds eff = eff * Second)
    by (apply Duration_exact; lia).
  assert (Hle : 0 < Duration_of_seconds eff <= c * Second)
    by (rewrite Hex; unfold Second; lia).
  split; [exists eff; auto|]. split; [exact Hle|].
  intros b ts Hs.
  apply select_event_inv in Hs
    as (env0 & eff' & process & err & now & Heff' & Hcall & _ & -> & _).
  rewrite Heff in Heff'. injection Heff' as <-.
  pose proof (process_call_time _ _ _ _ _ Hcall) as Hnow.
  pose proof (select_time_le w _ _ Hnow). lia.
Qed.

Lemma ceiling_bounds_the_command_and_the_wait_witness :
  ceiling (Getenv_MaxTimeOut (with_max_timeout pipe_held_open "5"))
  = inl 5
  /\ 0 < 5 <= max_exact_timeout
  /\ 0 <= requested_timeout (echo_hi (Some 10))
  /\ In (EvWithTimeout (5 * Second))
        (snd (run (with_max_timeout pipe_held_open "5") (echo_hi (Some 10))))
  /\ 0 < 5 * Second <= 5 * Second
  /\ forall b ts,
       In (EvSelect b ts)
          (snd (run (with_max_timeout pipe_held_open "5")
                  (echo_hi (Some 10)))) ->
       ts <= 5 * Second.
Proof.
  assert (H2 : 0 < 5 <= max_exact_timeout) by (vm_compute; split; congruence).
  assert (H3 : 0 <= requested_timeout (echo_hi (Some 10)))
    by (vm_compute; congruence).
  assert (H4 : In (EvWithTimeout (5 * Second))
                 (snd (run (with_max_timeout pipe_held_open "5")
                         (echo_hi (Some 10)))))
    by (vm_compute; tauto).
  refine (conj eq_refl (conj H2 (conj H3 (conj H4 _)))).
  exact (proj2 (ceiling_bounds_the_command_and_the_wait
                  (with_max_timeout pipe_held_open "5") (echo_hi (Some 10))
                  5 (5 * Second) eq_refl H2 H3 H4)).
Defined.

(** X14. The duration [time.Duration(timeout) * time.Second] is an [int64]
    product: an effective timeout above 9223372036 seconds, up to
    18446744073, wraps to a negative duration, so the command context is
    done when it is made, no process is spawned and the call does not
    succeed. *)
Theorem oversized_timeout_wraps_and_never_starts
    (w : World) (data : ResourceData) (eff : Z) :
  effective_timeout (requested_timeout data) (Getenv_MaxTimeOut w)
  = Some eff ->
  max_exact_timeout < eff <= 2 * max_exact_timeout + 1 ->
  Duration_of_seconds eff = eff * Second - 2 ^ 64
  /\ Duration_of_seconds eff < 0
  /\ existsb is_spawn (snd (run w data)) = false
  /\ fst (run w data) <> Ok.
Proof.
  intros Heff Hb.
  assert (Hd : Duration_of_seconds eff = eff * Second - 2 ^ 64).
  { unfold Duration_of_seconds, wrap64, Second, max_exact_timeout in *.
    replace (eff * 1000000000 + 2 ^ 63)
      with (eff * 1000000000 - 2 ^ 63 + 1 * 2 ^ 64) by lia.
    rewrite Z.mod_add by lia. rewrite Z.mod_small; lia. }
  assert (Hn : Duration_of_seconds eff < 0).
  { rewrite Hd. unfold Second, max_exact_timeout in *. lia. }
  split; [exact Hd|]. split; [exact Hn|].
  apply (expired_never_starts _ _ eff Heff). lia.
Qed.

Lemma oversized_timeout_wraps_and_never_starts_witness :
  effective_timeout (requested_timeout (echo_hi (Some 9223372037)))
    (Getenv_MaxTimeOut quiet_linux) = Some 9223372037
  /\ max_exact_timeout < 9223372037 <= 2 * max_exact_timeout + 1
  /\ Duration_of_seconds 9223372037 = 9223372037 * Second - 2 ^ 64
  /\ Duration_of_seconds 9223372037 < 0
  /\ existsb is_spawn (snd (run quiet_linux (echo_hi (Some 9223372037))))
     = false
  /\ fst (run quiet_linux (echo_hi (Some 9223372037))) <> Ok.
Proof.
  assert (H2 : max_exact_timeout < 9223372037 <= 2 * max_exact_timeout + 1)
    by (vm_compute; split; congruence).
  refine (conj eq_refl (conj H2 _)).
  exact (oversized_timeout_wraps_and_never_starts quiet_linux
           (echo_hi (Some 9223372037)) 9223372037 eq_refl H2).
Defined.

(** X15. A negative [MAX_TIMEOUT] is accepted by [strconv.Atoi] and then
    replaces every requested timeout that is zero or above it, while a
    requested timeout below it is kept: the effective timeout is negative
    in both cases, the command context is done when it is made, and no
    call spawns a process or succeeds. *)
Theorem negative_ceiling_starts_nothing
    (w : World) (data : ResourceData) (c : Z) :
  ceiling (Getenv_MaxTimeOut w) = inl c ->
  - max_exact_timeout <= c < 0 ->
  - max_exact_timeout <= requested_timeout data ->
  effective_timeout (requested_timeout data) (Getenv_MaxTimeOut w)
  = Some (Z.min (requested_timeout data) c)
  /\ existsb is_spawn (snd (run w data)) = false
  /\ fst (run w data) <> Ok.
Proof.
  intros Hc Hneg Hr.
  pose proof (effective_timeout_formula _ (requested_timeout data) _ Hc)
    as Heff.
  assert (Hm : (if c =? 0 then requested_timeout data
                else if requested_timeout data =? 0 then c
                     else Z.min (requested_timeout data) c)
               = Z.min (requested_timeout data) c).
  { destruct (Z.eqb_spec c 0); [lia|].
    destruct (Z.eqb_spec (requested_timeout data) 0); lia. }
  rewrite Hm in Heff. split; [exact Heff|].
  apply (expired_never_starts _ _ _ Heff).
  rewrite Duration_exact by lia. unfold Second. lia.
Qed.

Lemma negative_ceiling_starts_nothing_witness :
  ceiling (Getenv_MaxTimeOut (with_max_timeout quiet_linux "-5"))
  = inl (- 5)
  /\ - max_exact_timeout <= - 5 < 0
  /\ - max_exact_timeout <= requested_timeout (echo_hi (Some 10))
  /\ effective_timeout (requested_timeout (echo_hi (Some 10)))
       (Getenv_MaxTimeOut (with_max_timeout quiet_linux "-5"))
     = Some (Z.min (requested_timeout (echo_hi (Some 10))) (- 5))
  /\ existsb is_spawn
       (snd (run (with_max_timeout quiet_linux "-5") (echo_hi (Some 10))))
     = false
  /\ fst (run (with_max_timeout quiet_linux "-5") (echo_hi (Some 10))) <> Ok.
Proof.
  assert (H2 : - max_exact_timeout <= - 5 < 0)
    by (vm_compute; split; congruence).
  assert (H3 : - max_exact_timeout <= requested_timeout (echo_hi (Some 10)))
    by (vm_compute; congruence).
  refine (conj eq_refl (conj H2 (conj H3 _))).
  exact (negative_ceiling_starts_nothing (with_max_timeout quiet_linux "-5")
           (echo_hi (Some 10)) (- 5) eq_refl H2 H3).
Defined.

(** ** Resources *)

(** X16. Whatever the configuration and the host do, a call pairs its
    resources: it opens at most one pipe and closes the write end once
    exactly when it has opened one; it spawns at most one process and waits
    once for every process it has spawned; it looks up a process group only
    for a process it has spawned and sends no more signals than it has made
    lookups. *)
Theorem call_pairs_its_resources (w : World) (data : ResourceData) :
  count_events is_pipe (snd (run w data))
  = count_events is_close (snd (run w data))
  /\ (count_events is_pipe (snd (run w data)) <= 1)%nat
  /\ count_events is_spawn (snd (run w data))
     = count_events is_wait (snd (run w data))
  /\ (count_events is_spawn (snd (run w data))
      <= count_events is_pipe (snd (run w data)))%nat
  /\ (count_events is_kill (snd (run w data))
      <= count_events is_getpgid (snd (run w data)))%nat
  /\ (count_events is_getpgid (snd (run w data))
      <= count_events is_spawn (snd (run w data)))%nat.
Proof.
  unfold count_events.
  destruct (run_outline w data) as
    [[Htr _] | [(eff & reason & _ & _ & _ & _ & Hr)
    | (env0 & eff & process & err & now & _ & _ & _ & _ & _ & _ & _
       & Htr)]].
  - rewrite Htr. simpl. lia.
  - rewrite Hr. cbn [snd]. unfold log_trace.
    destruct (String.length _ =? 0)%nat; simpl; lia.
  - rewrite Htr. unfold log_trace, select_tail, group_signal, call_trace.
    rewrite !filter_app, !length_app.
    destruct (String.length _ =? 0)%nat;
      destruct process as [pid|]; [| destruct err as [e|] | | destruct err as [e|]];
      destruct (branch_eqb _ _ && negb _);
      try destruct (Getpgid w _ _); simpl; lia.
Qed.

(** * Part IV: the defects of the timeout case *)

(** ** C8: a failed start and the nil [cmd.Process] *)

(** A failed start leaves no process, and the [select] is entered at
    once. *)
Lemma start_failed_outline w data e :
  In (EvStartFailed e) (snd (run w data)) ->
  exists eff,
    effective_timeout (requested_timeout data) (Getenv_MaxTimeOut w)
    = Some eff
    /\ process_call w (Duration_of_seconds eff) = (None, Some e, 0)
    /\ fst (run w data)
       = (if select_panics w (Duration_of_seconds eff) None 0
          then Panicked "invalid memory address or nil pointer dereference"
          else Failed (Errorf (failure_message w data e)))
    /\ snd (run w data)
       = log_trace (Getenv_MaxTimeOut w) eff
         ++ [EvPipe; EvWithTimeout (Duration_of_seconds eff);
             EvGoCopyOutput; EvExecuting (cmdargs_of w data)]
         ++ [EvStartFailed e]
         ++ [EvClosePw;
             EvSelect (select_branch w (Duration_of_seconds eff) 0)
               (select_time w (Duration_of_seconds eff) 0)].
Proof.
  intros Hf.
  destruct (beyond_log_outline _ _ _ Hf eq_refl)
    as (env0 & eff & process & err & now & Heff & Hcall & Hres & Htr).
  assert (Hp : process = None /\ err = Some e).
  { rewrite Htr in Hf.
    repeat (apply in_app_or in Hf as [Hf | Hf]).
    - apply log_trace_in in Hf. discriminate.
    - simpl in Hf. intuition discriminate.
    - unfold call_trace in Hf.
      destruct process as [p|]; [|destruct err as [e'|]]; simpl in Hf.
      + intuition discriminate.
      + destruct Hf as [Hf | []]. now injection Hf as ->.
      + contradiction.
    - simpl in Hf. intuition discriminate.
    - apply select_tail_in in Hf
        as (_ & _ & p & _ & [Hg | (g & _ & Hg)]); discriminate. }
  destruct Hp as [-> ->].
  assert (Hnow : now = 0).
  { unfold process_call in Hcall.
    destruct (cmd_Start w (Duration_of_seconds eff)) as [e' | p].
    - now injection Hcall as _ <-.
    - destruct (cmd_Wait w (Duration_of_seconds eff)). discriminate. }
  subst now. exists eff.
  split; [exact Heff|]. split; [exact Hcall|]. split; [exact Hres|].
  rewrite Htr. cbn [call_trace]. unfold select_tail.
  destruct (branch_eqb _ _ && negb _); now rewrite app_nil_r.
Qed.

(** C8. The claim fails on the code where a start error meets the timeout
    case of the [select]: when [cmd.Start] has failed, [cmd.Process] is nil,
    and if the [select] then takes the case of the command context on a
    host other than windows, line 187 dereferences it.  The call panics:
    it returns no error at all, so no message with the command, the reason
    and the output reaches the caller; the event of the [select] is the
    last thing the call does. *)
Theorem start_failure_in_the_timeout_case_returns_no_error
    (w : World) (data : ResourceData) (e : cmderr) (ts : Z) :
  In (EvStartFailed e) (snd (run w data)) ->
  In (EvSelect TimeoutDone ts) (snd (run w data)) ->
  String.eqb (GOOS w) "windows" = false ->
  fst (run w data)
  = Panicked "invalid memory address or nil pointer dereference"
  /\ (forall err, fst (run w data) <> Failed err)
  /\ existsb is_spawn (snd (run w data)) = false
  /\ exists pre,
       snd (run w data)
       = pre ++ [EvStartFailed e; EvClosePw; EvSelect TimeoutDone ts].
Proof.
  intros Hf Hs Hwin.
  destruct (start_failed_outline _ _ _ Hf)
    as (eff & Heff & Hcall & Hres & Htr).
  apply select_event_inv in Hs
    as (env1 & eff' & process & err & now & Heff' & Hcall' & Hb & Hts & _).
  rewrite Heff in Heff'. injection Heff' as <-.
  rewrite Hcall in Hcall'. injection Hcall' as <- <- <-.
  assert (Hp : select_panics w (Duration_of_seconds eff) None 0 = true).
  { unfold select_panics. now rewrite <- Hb, Hwin. }
  rewrite Hp in Hres. rewrite Hres.
  split; [reflexivity|]. split; [intros err; discriminate|]. split.
  - rewrite Htr, !existsb_app, (existsb_logs _ _ eff);
      [reflexivity | intros ev; apply log_trace_in | reflexivity].
  - exists (log_trace (Getenv_MaxTimeOut w) eff
            ++ [EvPipe; EvWithTimeout (Duration_of_seconds eff);
                EvGoCopyOutput; EvExecuting (cmdargs_of w data)]).
    rewrite Htr, <- Hb, <- Hts, <- !app_assoc. reflexivity.
Qed.

Lemma start_failure_in_the_timeout_case_returns_no_error_witness :
  In (EvStartFailed DeadlineExceeded) (snd (run quiet_linux (echo_hi None)))
  /\ In (EvSelect TimeoutDone 0) (snd (run quiet_linux (echo_hi None)))
  /\ String.eqb (GOOS quiet_linux) "windows" = false
  /\ fst (run quiet_linux (echo_hi None))
     = Panicked "invalid memory address or nil pointer dereference"
  /\ (forall err, fst (run quiet_linux (echo_hi None)) <> Failed err).
Proof.
  assert (H1 : In (EvStartFailed DeadlineExceeded)
                 (snd (run quiet_linux (echo_hi None))))
    by (vm_compute; tauto).
  assert (H2 : In (EvSelect TimeoutDone 0)
                 (snd (run quiet_linux (echo_hi None))))
    by (vm_compute; tauto).
  refine (conj H1 (conj H2 (conj eq_refl _))).
  destruct (start_failure_in_the_timeout_case_returns_no_error
              quiet_linux (echo_hi None) DeadlineExceeded 0 H1 H2 eq_refl)
    as (Hres & Hno & _).
  exact (conj Hres Hno).
Defined.

(** ** C4: the group id is looked up after the reap *)





(** The call at the failing input: the command has exited after five
    seconds, a descendant keeps the pipe open, and at the deadline of ten
    seconds the lookup fails; the descendant is not signalled, and the call
    reports success. *)
Example held_pipe_group_is_never_signalled :
  run pipe_held_open (echo_hi (Some 10))
  = (Ok,
     [EvPipe; EvWithTimeout (10 * Second); EvGoCopyOutput;
      EvExecuting ["/bin/sh"; "-c"; "echo hi"]%string;
      EvSpawn 4242 ["/bin/sh"; "-c"; "echo hi"]%string ""
        ["PATH=/bin"; "GREETING=hi"]%string true;
      EvWait 4242 None (5 * Second);
      EvClosePw; EvSelect TimeoutDone (10 * Second);
      EvGetpgid 4242 None]).
Proof. vm_compute. reflexivity. Qed.
